(** * Contacts backend: token service, auth gate and contact service

    A shallow embedding of [src/services/auth.py] and
    [src/services/contacts.py], and the properties of the specification
    stated over it.

    Layout: the Python object model ([Py]), wall-clock values ([datetime]),
    the contract of the JOSE library the module calls ([jose]), the two
    service modules ([auth], [contacts]), the handlers of [main.py]
    ([main]), then the theorems. *)

From Stdlib Require Import ZArith Lia.
From stdpp Require Import base option strings pretty gmap fin_maps list.

Local Open Scope Z_scope.

(* ===================================================================== *)
(** ** Python values, exceptions and the object store                     *)
(* ===================================================================== *)

Module Py.

(** What a JWT payload can carry once serialised. Nested arrays and objects
    and floats do not occur in the code under study and are left out. *)
Inductive json : Type :=
| JNull
| JBool (b : bool)
| JInt (n : Z)
| JStr (s : string).

#[global] Instance json_eq_dec : EqDecision json.
Proof. solve_decision. Defined.

(** What a Python [dict] handled by the token service holds: a JSON value,
    or a [datetime] (microseconds since the epoch, UTC) put there by
    [dict.update] before [jwt.encode] turns it into an integer. *)
Inductive pyval : Type :=
| PJson (j : json)
| PDatetime (us : Z).

#[global] Instance pyval_eq_dec : EqDecision pyval.
Proof. solve_decision. Defined.

Definition as_json (v : pyval) : option json :=
  match v with
  | PJson j => Some j
  | PDatetime _ => None
  end.

(** [fastapi.HTTPException(status_code, detail, headers)]. *)
Record HTTPException : Type := mkHTTPException {
  status_code : Z;
  detail : string;
  headers : option (list (string * string))
}.

(** [jose.exceptions]: [JWTError] and its two subclasses. An
    [except JWTError] clause catches all three. *)
Inductive JWTError : Type :=
| JWTError_base
| ExpiredSignatureError
| JWTClaimsError.

Inductive exn : Type :=
| HTTP (e : HTTPException)
| JWT (e : JWTError)
| KeyError (key : string)
| OverflowError
| TypeError.

Inductive outcome (A : Type) : Type :=
| Returns (a : A)
| Raises (e : exn).
Arguments Returns {A} a.
Arguments Raises {A} e.

(** [try: body except JWTError: handler]. Every other exception passes. *)
Definition try_except_JWTError {A} (body : outcome A) (handler : outcome A)
  : outcome A :=
  match body with
  | Raises (JWT _) => handler
  | other => other
  end.

(** The object store. A [dict] is a mutable object: variables hold a
    location, and two variables may hold the same one. *)
Definition loc : Type := positive.

(** A computation over the store. [None] is reserved for a dangling
    location, which a Python program cannot produce. *)
Definition py (A : Type) : Type :=
  gmap loc (gmap string pyval) → option (outcome A * gmap loc (gmap string pyval)).

#[global] Instance py_ret : MRet py := λ A a h, Some (Returns a, h).

#[global] Instance py_bind : MBind py := λ A B f m h,
  match m h with
  | Some (Returns a, h') => f a h'
  | Some (Raises e, h') => Some (Raises e, h')
  | None => None
  end.

Definition lift {A} (o : outcome A) : py A := λ h, Some (o, h).

(** [d.copy()]: a new object with the same items (a shallow copy). *)
Definition dict_copy (l : loc) : py loc := λ h,
  match h !! l with
  | Some d => let l' := fresh (dom h) in Some (Returns l', <[l' := d]> h)
  | None => None
  end.

(** [d.update({k1: v1, ...})]: items are stored in place, in order. *)
Definition dict_update (l : loc) (items : list (string * pyval)) : py unit := λ h,
  match h !! l with
  | Some d =>
      Some (Returns tt, <[l := foldl (λ acc kv, <[kv.1 := kv.2]> acc) d items]> h)
  | None => None
  end.

End Py.
Import Py.

(* ===================================================================== *)
(** ** datetime                                                            *)
(* ===================================================================== *)

Module datetime.

(** An aware UTC [datetime] is its number of microseconds since the epoch;
    a [timedelta] is a number of microseconds. *)
Definition MIN : Z := -62135596800 * 1000000.
Definition MAX : Z := 253402300799 * 1000000 + 999999.

(** [timedelta(seconds=n)]: the day count must have magnitude at most
    999999999. *)
Definition timedelta_seconds (n : Z) : outcome Z :=
  if bool_decide (-999999999 ≤ n `div` 86400 ≤ 999999999)
  then Returns (n * 1000000)
  else Raises OverflowError.

Definition timedelta_days (n : Z) : outcome Z :=
  if bool_decide (-999999999 ≤ n ≤ 999999999)
  then Returns (n * 86400 * 1000000)
  else Raises OverflowError.

(** [dt + delta]: the result must be a date of the years 1 to 9999. *)
Definition add (dt : Z) (delta : outcome Z) : outcome Z :=
  match delta with
  | Returns d =>
      if bool_decide (MIN ≤ dt + d ≤ MAX) then Returns (dt + d)
      else Raises OverflowError
  | Raises e => Raises e
  end.

(** [calendar.timegm(dt.utctimetuple())]: whole seconds, the microseconds
    dropped. *)
Definition timegm (dt : Z) : Z := dt `div` 1000000.

(** The instant [n] seconds after [dt] can be computed: neither the
    [timedelta] nor the sum overflows. *)
Definition seconds_later_ok (dt n : Z) : Prop :=
  -999999999 ≤ n `div` 86400 ≤ 999999999 ∧ MIN ≤ dt + n * 1000000 ≤ MAX.

#[global] Instance seconds_later_ok_dec dt n : Decision (seconds_later_ok dt n).
Proof. unfold seconds_later_ok. apply _. Defined.

End datetime.

(* ===================================================================== *)
(** ** The JOSE library, as far as the services rely on it                 *)
(* ===================================================================== *)

Module jose.

#[global] Instance JWTError_eq_dec : EqDecision JWTError.
Proof. solve_decision. Defined.

(** What the validation of the claims can raise: a [JWTError], or the
    [TypeError] of an [int(None)], which the library does not catch. *)
Inductive rejection : Type :=
| RejectJWT (e : JWTError)
| RejectTypeError.

#[global] Instance rejection_eq_dec : EqDecision rejection.
Proof. solve_decision. Defined.

Definition raised (r : rejection) : exn :=
  match r with
  | RejectJWT e => JWT e
  | RejectTypeError => TypeError
  end.

(** Taken as given: the signing primitive, Python's reading of a string as
    an integer ([None]: [ValueError]), and the library's validation of the
    claims it checks after the three time claims ([aud], [iss], [sub],
    [jti], [at_hash]). *)
Class Lib : Type := {
  sign : string → string → gmap string json → string;
  int_of_str : string → option Z;
  validate_others : gmap string json → option rejection
}.

(** A bearer string, read as a compact serialisation: either it splits into
    header algorithm, payload and signature, or it does not parse. The
    payload is kept as the claims mapping that [json.loads] gives back: two
    serialisations that differ only in the order of the members of the
    payload are one [token] here, and [sign] is over that mapping. No
    statement below rests on two tokens being equal. *)
Inductive token : Type :=
| Compact (alg : string) (payload : gmap string json) (sig : string)
| Malformed (raw : string).

Definition payload_of (tok : token) : gmap string json :=
  match tok with
  | Compact _ p _ => p
  | Malformed _ => ∅
  end.

Definition time_claims : list string := ["exp"; "iat"; "nbf"]%string.

(** [jwt.encode] replaces, in the dictionary it is given, every
    [datetime] found under a time claim by its integer timestamp. *)
Definition intdate (k : string) (v : pyval) : pyval :=
  match v with
  | PDatetime us =>
      if bool_decide (k ∈ time_claims) then PJson (JInt (datetime.timegm us)) else v
  | _ => v
  end.

Definition serialisable (d : gmap string pyval) : bool :=
  bool_decide (map_Forall (λ _ v, is_Some (as_json v)) d).

Definition encode `{Lib} (claims : loc) (key alg : string) : py token := λ h,
  match h !! claims with
  | Some d =>
      let d' := map_imap (λ k v, Some (intdate k v)) d in
      let h' := <[claims := d']> h in
      if serialisable d'
      then let p := omap as_json d' in
           Some (Returns (Compact alg p (sign key alg p)), h')
      else Some (Raises TypeError, h')
  | None => None
  end.

(** [int(x)] on a JSON value: a number, [ValueError], or [TypeError]. *)
Inductive int_result : Type :=
| IntOk (n : Z)
| IntValueError
| IntTypeError.

Definition py_int `{Lib} (v : json) : int_result :=
  match v with
  | JNull => IntTypeError
  | JBool b => IntOk (if b then 1 else 0)
  | JInt n => IntOk n
  | JStr s => match int_of_str s with
              | Some n => IntOk n
              | None => IntValueError
              end
  end.

(** The library's three validations of time claims, at second [now]. Each
    does [int(claims[...])] under [except ValueError]: a [ValueError]
    becomes a [JWTClaimsError], a [TypeError] passes. *)
Definition validate_iat `{Lib} (p : gmap string json) : option rejection :=
  match p !! "iat"%string with
  | None => None
  | Some v =>
      match py_int v with
      | IntOk _ => None
      | IntValueError => Some (RejectJWT JWTClaimsError)
      | IntTypeError => Some RejectTypeError
      end
  end.

Definition validate_nbf `{Lib} (p : gmap string json) (now : Z) : option rejection :=
  match p !! "nbf"%string with
  | None => None
  | Some v =>
      match py_int v with
      | IntOk nbf => if now <? nbf then Some (RejectJWT JWTClaimsError) else None
      | IntValueError => Some (RejectJWT JWTClaimsError)
      | IntTypeError => Some RejectTypeError
      end
  end.

Definition validate_exp `{Lib} (p : gmap string json) (now : Z) : option rejection :=
  match p !! "exp"%string with
  | None => None
  | Some v =>
      match py_int v with
      | IntOk e => if e <? now then Some (RejectJWT ExpiredSignatureError) else None
      | IntValueError => Some (RejectJWT JWTClaimsError)
      | IntTypeError => Some RejectTypeError
      end
  end.

(** The validations in the order the library runs them; the first
    rejection is what is raised. *)
Definition validate_claims `{Lib} (p : gmap string json) (now : Z) : option rejection :=
  match validate_iat p with
  | Some r => Some r
  | None =>
      match validate_nbf p now with
      | Some r => Some r
      | None =>
          match validate_exp p now with
          | Some r => Some r
          | None => validate_others p
          end
      end
  end.

(** The validation of every registered claim other than [exp] accepts. *)
Definition registered_claims_ok `{Lib} (p : gmap string json) (now : Z) : bool :=
  bool_decide (validate_iat p = None ∧ validate_nbf p now = None
               ∧ validate_others p = None).

(** [jwt.decode(token, key, algorithms=[...])] at clock reading [now] (the
    library reads the clock once for [nbf] and once for [exp]; the two
    readings are taken as one). *)
Definition decode `{Lib} (tok : token) (key : string) (algorithms : list string)
    (now : Z) : outcome (gmap string json) :=
  match tok with
  | Malformed _ => Raises (JWT JWTError_base)
  | Compact alg p sig =>
      if negb (bool_decide (alg ∈ algorithms)) then Raises (JWT JWTError_base)
      else if negb (bool_decide (sig = sign key alg p)) then Raises (JWT JWTError_base)
      else match validate_claims p (datetime.timegm now) with
           | Some r => Raises (raised r)
           | None => Returns p
           end
  end.

End jose.

(* ===================================================================== *)
(** ** Records of the data model                                           *)
(* ===================================================================== *)

Module models.

(** Modelled from the spec: [src/database/models.py] ([User], [Contact]) and
    [src/schemas.py] ([ContactModel]) are not among the sources; the fields
    are those of section 3 of the specification, plus the row keys. *)
Record User : Type := mkUser {
  user_id : Z;
  username : string;
  user_email : string;
  hashed_password : string;
  confirmed : bool
}.

Record ContactModel : Type := mkContactModel {
  name : string;
  surname : string;
  email : string;
  phone : string;
  birthday : string;
  notes : string
}.

Record Contact : Type := mkContact {
  contact_id : Z;
  owner_id : Z;
  fields : ContactModel
}.

#[global] Instance User_eq_dec : EqDecision User.
Proof. solve_decision. Defined.
#[global] Instance ContactModel_eq_dec : EqDecision ContactModel.
Proof. solve_decision. Defined.
#[global] Instance Contact_eq_dec : EqDecision Contact.
Proof. solve_decision. Defined.

End models.
Import models.

(* ===================================================================== *)
(** ** src/services/auth.py                                                *)
(* ===================================================================== *)

Module auth.
Import jose.

(** [src/conf/config.py] is not among the sources: the three settings the
    module reads are a parameter. *)
Record Settings : Type := mkSettings {
  JWT_SECRET : string;
  JWT_ALGORITHM : string;
  JWT_EXPIRATION_SECONDS : Z
}.

(** Truth value of an [Optional[int]]: [None] and [0] are false. *)
Definition truthy (x : option Z) : bool :=
  match x with
  | Some n => negb (n =? 0)
  | None => false
  end.

(** [timedelta(seconds=x)] for an [Optional[int]]. *)
Definition timedelta_of (x : option Z) : outcome Z :=
  match x with
  | Some n => datetime.timedelta_seconds n
  | None => Raises TypeError
  end.

(** Lines 42 to 45 of [create_access_token]: the expiry instant. [now] is
    the reading of [datetime.now(timezone.utc)] taken in whichever branch
    runs. *)
Definition access_expiry (settings : Settings) (now : Z) (expires_delta : option Z)
  : outcome Z :=
  if truthy expires_delta
  then datetime.add now (timedelta_of expires_delta)
  else datetime.add now
         (datetime.timedelta_seconds (JWT_EXPIRATION_SECONDS settings)).

(** [create_access_token(data, expires_delta)]. *)
Definition create_access_token `{Lib} (settings : Settings) (now : Z)
    (data : loc) (expires_delta : option Z) : py token :=
  to_encode ← dict_copy data;
  expire ← lift (access_expiry settings now expires_delta);
  _ ← dict_update to_encode [("exp"%string, PDatetime expire)];
  encode to_encode (JWT_SECRET settings) (JWT_ALGORITHM settings).

Definition credentials_exception : HTTPException :=
  {| status_code := 401;
     detail := "Could not validate credentials";
     headers := Some [("WWW-Authenticate"%string, "Bearer"%string)] |}.

(** [payload["sub"]]: subscripting a [dict] with a missing key raises
    [KeyError]. *)
Definition subscript (payload : gmap string json) (key : string) : outcome json :=
  match payload !! key with
  | Some v => Returns v
  | None => Raises (KeyError key)
  end.

(** [get_current_user(token, db)]. [get_user_by_username] is the lookup of
    [UserService(db)], whose module is not among the sources; [now] is the
    clock reading of [jwt.decode]. *)
Definition get_current_user `{Lib} (settings : Settings)
    (get_user_by_username : json → option User) (now : Z) (tok : token)
  : outcome User :=
  let guarded :=
    try_except_JWTError
      (match decode tok (JWT_SECRET settings) [JWT_ALGORITHM settings] now with
       | Returns payload =>
           match subscript payload "sub" with
           | Returns username =>
               if bool_decide (username = JNull)
               then Raises (HTTP credentials_exception)
               else Returns username
           | Raises e => Raises e
           end
       | Raises e => Raises e
       end)
      (Raises (HTTP credentials_exception)) in
  match guarded with
  | Returns username =>
      match get_user_by_username username with
      | None => Raises (HTTP credentials_exception)
      | Some user => Returns user
      end
  | Raises e => Raises e
  end.

(** [create_email_token(data)]. The source reads the clock twice: [now_exp]
    is the reading of line 99 (for the expiry), [now_iat] the reading of
    line 102 (for the issued-at claim). *)
Definition create_email_token `{Lib} (settings : Settings) (now_exp now_iat : Z)
    (data : loc) : py token :=
  to_encode ← dict_copy data;
  expire ← lift (datetime.add now_exp (datetime.timedelta_days 7));
  _ ← dict_update to_encode
        [("iat"%string, PDatetime now_iat); ("exp"%string, PDatetime expire)];
  encode to_encode (JWT_SECRET settings) (JWT_ALGORITHM settings).

Definition invalid_email_token : HTTPException :=
  {| status_code := 422;
     detail := "Неправильний токен для перевірки електронної пошти";
     headers := None |}.

(** [get_email_from_token(token)]. *)
Definition get_email_from_token `{Lib} (settings : Settings) (now : Z)
    (tok : token) : outcome json :=
  try_except_JWTError
    (match decode tok (JWT_SECRET settings) [JWT_ALGORITHM settings] now with
     | Returns payload => subscript payload "sub"
     | Raises e => Raises e
     end)
    (Raises (HTTP invalid_email_token)).

End auth.

(* ===================================================================== *)
(** ** src/services/contacts.py                                            *)
(* ===================================================================== *)

Module contacts.

(** The calls that [create_contact], [get_contact], [update_contact] and
    [remove_contact] await on [self.repository], indexed by the type of what
    they return. (The two pass-through listings, [get_contacts] and
    [get_upcoming_birthdays], are not part of this development.) *)
Inductive RepoCall : Type → Type :=
| IsContactExists (email phone : string) (user : User) : RepoCall bool
| CreateContact (body : ContactModel) (user : User) : RepoCall Contact
| GetContactById (contact_id : Z) (user : User) : RepoCall (option Contact)
| UpdateContact (contact_id : Z) (body : ContactModel) (user : User)
    : RepoCall (option Contact)
| RemoveContact (contact_id : Z) (user : User) : RepoCall (option Contact).

(** A service method: it returns, raises an [HTTPException], or awaits a
    repository call and goes on with its result. *)
Inductive prog (A : Type) : Type :=
| Ret (a : A)
| Raise (e : HTTPException)
| Call {X : Type} (c : RepoCall X) (k : X → prog A).
Arguments Ret {A} a.
Arguments Raise {A} e.
Arguments Call {A X} c k.

Definition duplicate_contact (body : ContactModel) : HTTPException :=
  {| status_code := 400;
     detail := "Contact with '" +:+ email body +:+ "' email or '" +:+ phone body
               +:+ "' phone number already exists.";
     headers := None |}.

Definition contact_not_found : HTTPException :=
  {| status_code := 404; detail := "Contact not found"; headers := None |}.

Definition create_contact (body : ContactModel) (user : User) : prog Contact :=
  Call (IsContactExists (email body) (phone body) user) (λ found : bool,
    if found then Raise (duplicate_contact body)
    else Call (CreateContact body user) Ret).

Definition get_contact (contact_id : Z) (user : User) : prog Contact :=
  Call (GetContactById contact_id user) (λ contact,
    match contact with
    | None => Raise contact_not_found
    | Some c => Ret c
    end).

Definition update_contact (contact_id : Z) (body : ContactModel) (user : User)
  : prog Contact :=
  Call (UpdateContact contact_id body user) (λ updated_contact,
    match updated_contact with
    | None => Raise contact_not_found
    | Some c => Ret c
    end).

Definition remove_contact (contact_id : Z) (user : User) : prog Contact :=
  Call (RemoveContact contact_id user) (λ deleted_contact,
    match deleted_contact with
    | None => Raise contact_not_found
    | Some c => Ret c
    end).

(** [src/repository/contacts.py] is not among the sources: a repository is
    anything that answers the calls over some store [DB], each call
    returning its value and the store it leaves. *)
Class ContactRepository (DB : Type) : Type :=
  handle : ∀ X, RepoCall X → DB → X * DB.
Arguments handle {DB _ X} c db.

(** One awaited call, as recorded in the order it was made. *)
Inductive event : Type :=
| Awaited {X : Type} (c : RepoCall X).

Definition is_create (ev : event) : bool :=
  match ev with
  | Awaited (CreateContact _ _) => true
  | Awaited _ => false
  end.

(** What a run of a method leaves behind. *)
Record run_result (DB A : Type) : Type := mkRun {
  result : outcome A;
  store : DB;
  calls : list event
}.
Arguments mkRun {DB A} result store calls.
Arguments result {DB A} r.
Arguments store {DB A} r.
Arguments calls {DB A} r.

Fixpoint run {DB A} `{ContactRepository DB} (p : prog A) (db : DB)
  : run_result DB A :=
  match p with
  | Ret a => mkRun (Returns a) db []
  | Raise e => mkRun (Raises (HTTP e)) db []
  | Call c k =>
      let '(x, db') := handle c db in
      let r := run (k x) db' in
      mkRun (result r) (store r) (Awaited c :: calls r)
  end.

(** Modelled from the spec: the repository kept in memory, a list of rows.
    [src/repository/contacts.py] is missing; sections 4.4 and 6 of the
    specification give ownership-scoped operations, and
    [is_contact_exists] as "same email OR same phone for this user". *)
Definition owned_by (user : User) (c : Contact) : bool :=
  bool_decide (owner_id c = user_id user).

Definition mem_is_contact_exists (e p : string) (user : User) (db : list Contact)
  : bool :=
  existsb (λ c, owned_by user c
                && (bool_decide (email (fields c) = e)
                    || bool_decide (phone (fields c) = p))) db.

Definition next_id (db : list Contact) : Z :=
  1 + foldr (λ c m, Z.max (contact_id c) m) 0 db.

Definition mem_find (cid : Z) (user : User) (db : list Contact) : option Contact :=
  List.find (λ c, owned_by user c && bool_decide (contact_id c = cid)) db.

Definition mem_handle : ∀ X, RepoCall X → list Contact → X * list Contact :=
  λ X c db,
  match c in RepoCall X return X * list Contact with
  | IsContactExists e p user => (mem_is_contact_exists e p user db, db)
  | CreateContact body user =>
      let row := mkContact (next_id db) (user_id user) body in
      (row, db ++ [row])
  | GetContactById cid user => (mem_find cid user db, db)
  | UpdateContact cid body user =>
      match mem_find cid user db with
      | Some old =>
          let row := mkContact cid (user_id user) body in
          (Some row,
           map (λ c, if owned_by user c && bool_decide (contact_id c = cid)
                     then row else c) db)
      | None => (None, db)
      end
  | RemoveContact cid user =>
      match mem_find cid user db with
      | Some old =>
          (Some old,
           filter (λ c, ¬ (owned_by user c && bool_decide (contact_id c = cid))) db)
      | None => (None, db)
      end
  end.

Definition in_memory : ContactRepository (list Contact) := mem_handle.

End contacts.

(* ===================================================================== *)
(** ** Concrete instances used to run the definitions                      *)
(* ===================================================================== *)

Module fixtures.
Import jose auth contacts.

Definition render (j : json) : string :=
  match j with
  | JNull => "null"
  | JBool true => "true"
  | JBool false => "false"
  | JInt n => pretty n
  | JStr s => s
  end.

(** A keyed tag over the rendered payload: stands in for HMAC. *)
Definition toy_sign (key alg : string) (p : gmap string json) : string :=
  key +:+ "." +:+ alg +:+ "."
  +:+ foldr (λ kv acc, kv.1 +:+ "=" +:+ render kv.2 +:+ ";" +:+ acc) "" (map_to_list p).

(** Decimal digits with an optional minus sign, read as an integer. *)
Fixpoint digits (s : string) (acc : Z) : option Z :=
  match s with
  | EmptyString => Some acc
  | String c rest =>
      let n := Z.of_nat (Ascii.nat_of_ascii c) in
      if (48 <=? n) && (n <=? 57) then digits rest (10 * acc + (n - 48)) else None
  end.

Definition toy_int_of_str (s : string) : option Z :=
  match s with
  | EmptyString => None
  | String c rest =>
      if bool_decide (Ascii.nat_of_ascii c = 45%nat)
      then match rest with
           | EmptyString => None
           | _ => Z.opp <$> digits rest 0
           end
      else digits s 0
  end.

(** Validation of the other claims in the manner of the library: a subject
    and a token id are strings, and no audience or [at_hash] is expected. *)
Definition toy_validate_others (p : gmap string json) : option rejection :=
  if match p !! "sub"%string with Some (JStr _) | None => true | _ => false end
     && match p !! "jti"%string with Some (JStr _) | None => true | _ => false end
     && bool_decide (p !! "aud"%string = None)
     && bool_decide (p !! "at_hash"%string = None)
  then None
  else Some (RejectJWT JWTClaimsError).

Definition toy_lib : Lib :=
  {| sign := toy_sign; int_of_str := toy_int_of_str;
     validate_others := toy_validate_others |}.

Definition toy_claims_ok (p : gmap string json) (now : Z) : bool :=
  @registered_claims_ok toy_lib p now.

Definition settings0 : Settings :=
  {| JWT_SECRET := "s3cret"; JWT_ALGORITHM := "HS256";
     JWT_EXPIRATION_SECONDS := 3600 |}.

Definition alice : User := mkUser 1 "alice" "alice@x.com" "$2b$12$hash" true.
Definition bob : User := mkUser 2 "bob" "bob@x.com" "$2b$12$hash" true.

Definition directory0 (name : json) : option User :=
  match name with
  | JStr s => ({[ "alice"%string := alice; "bob"%string := bob ]} : gmap string User) !! s
  | _ => None
  end.

(** A token the service itself would have signed for [payload]. *)
Definition signed (settings : Settings) (payload : gmap string json) : token :=
  Compact (JWT_ALGORITHM settings) payload
    (toy_sign (JWT_SECRET settings) (JWT_ALGORITHM settings) payload).

Definition claims_alice : gmap string json := {[ "sub"%string := JStr "alice" ]}.

(** A store holding one caller dictionary, [{"sub": "alice"}], at
    location 1. *)
Definition heap0 : gmap loc (gmap string pyval) :=
  {[ 1%positive := PJson <$> claims_alice ]}.

Definition body_a111 : ContactModel := mkContactModel "A" "X" "a@x.com" "111" "2000-01-01" "".
Definition body_a222 : ContactModel := mkContactModel "A" "X" "a@x.com" "222" "2000-01-01" "".
Definition body_b111 : ContactModel := mkContactModel "B" "X" "b@x.com" "111" "2000-01-01" "".

End fixtures.

(* ===================================================================== *)
(** ** main.py                                                             *)
(* ===================================================================== *)

Module main.

Inductive level : Type := WARNING | ERROR.

(** One call on [logger = logging.getLogger("rate_limiter")]. *)
Record LogRecord : Type := mkLog {
  logger_name : string;
  levelname : level;
  message : string
}.

(** The parts of a [starlette] request the handler reads. [request.client]
    is [None] when the server passes no client address. *)
Record Address : Type := mkAddress { host : string; port : Z }.
Record Request : Type := mkRequest { client : option Address; url_path : string }.

Record JSONResponse : Type := mkJSONResponse {
  response_status : Z;
  content : list (string * string)
}.

Inductive handler_outcome : Type :=
| Responds (r : JSONResponse)
| RaisesAttributeError (attribute : string).

Definition too_many_requests : JSONResponse :=
  {| response_status := 429;
     content := [("error"%string,
                  "Перевищено ліміт запитів. Спробуйте пізніше."%string)] |}.

(** [rate_limit_handler(request, exc)]: the logging calls made and what the
    handler ends with. Reading [.host] of a [None] client raises
    [AttributeError] while the message is being built, before the logger is
    called. *)
Definition rate_limit_handler (request : Request) (exc : string)
  : list LogRecord * handler_outcome :=
  match client request with
  | Some addr =>
      ([mkLog "rate_limiter" WARNING
          ("Rate limit exceeded for '" +:+ host addr +:+ "' at '"
           +:+ url_path request +:+ "'.")],
       Responds too_many_requests)
  | None => ([], RaisesAttributeError "host")
  end.

(** Something raised by [Config("alembic.ini")] or [command.upgrade]:
    whether it is an instance of [Exception] (what [except Exception]
    catches), and its [str]. *)
Record Thrown : Type := mkThrown { is_Exception : bool; text : string }.

(** [run_migrations()]: [body] is how the two [alembic] calls of the [try]
    block end ([None]: they complete). The result is the logging calls made
    and what leaves the function. *)
Definition run_migrations (body : option Thrown) : list LogRecord * option Thrown :=
  match body with
  | None => ([], None)
  | Some e =>
      if is_Exception e
      then ([mkLog "rate_limiter" ERROR ("Failed to apply migrations: " +:+ text e)],
            Some e)
      else ([], Some e)
  end.

(** [startup_event()]: awaits [run_migrations()] and nothing else. *)
Definition startup_event (body : option Thrown) : list LogRecord * option Thrown :=
  run_migrations body.

End main.

(* ===================================================================== *)
(** ** Further instances used to run the definitions                       *)
(* ===================================================================== *)

Module samples.
Import jose auth contacts fixtures.

(** A directory that also knows a user whose username is an email. *)
Definition carol : User := mkUser 3 "carol@x.com" "carol@x.com" "$2b$12$hash" false.

Definition directory1 (name : json) : option User :=
  match name with
  | JStr s =>
      ({[ "alice"%string := alice; "carol@x.com"%string := carol ]}
         : gmap string User) !! s
  | _ => None
  end.

Definition claims_carol : gmap string json := {[ "sub"%string := JStr "carol@x.com" ]}.

(** Caller dictionaries with claims of their own under [exp] and [iat]
    (location 2) and under [exp] alone (location 4). *)
Definition claims_alice_stamped : gmap string json :=
  <["iat"%string := JStr "x"]> (<["exp"%string := JInt 7]> claims_alice).

Definition claims_alice_dated : gmap string json :=
  <["exp"%string := JInt 7]> claims_alice.

(** Claims with a null [iat] (location 5), and a dictionary that holds a
    [datetime], 5.5 s, under [nbf] (location 6). *)
Definition claims_alice_null_iat : gmap string json :=
  <["iat"%string := JNull]> claims_alice.

Definition dict_alice_nbf : gmap string pyval :=
  <["nbf"%string := PDatetime 5500000]> (PJson <$> claims_alice).

Definition heap1 : gmap loc (gmap string pyval) :=
  {[ 1%positive := PJson <$> claims_alice;
     2%positive := PJson <$> claims_alice_stamped;
     3%positive := PJson <$> claims_carol;
     4%positive := PJson <$> claims_alice_dated;
     5%positive := PJson <$> claims_alice_null_iat;
     6%positive := dict_alice_nbf ]}.

End samples.

(* ===================================================================== *)
(** ** Facts about the library model                                       *)
(* ===================================================================== *)

Import jose auth contacts.

Section jose_facts.
Context `{L : Lib}.


Lemma validate_claims_None p now :
  validate_claims p now = None ↔
  registered_claims_ok p now = true ∧ validate_exp p now = None.
Proof.
  unfold validate_claims, registered_claims_ok. rewrite bool_decide_eq_true.
  destruct (validate_iat p) as [r | ];
    [ split; [ discriminate | intros [[H _] _]; discriminate ] | ].
  destruct (validate_nbf p now) as [r | ];
    [ split; [ discriminate | intros [(_ & H & _) _]; discriminate ] | ].
  destruct (validate_exp p now) as [r | ];
    [ split; [ discriminate | intros [_ H]; discriminate ] | ].
  destruct (validate_others p) as [r | ];
    [ split; [ discriminate | intros [(_ & _ & H) _]; discriminate ] | ].
  split; auto.
Qed.

(** With an integer [exp], the expiry step rejects exactly a second past
    [exp], and with [ExpiredSignatureError]. *)
Lemma validate_exp_int p now e :
  p !! "exp"%string = Some (JInt e) →
  validate_exp p now
  = if e <? now then Some (RejectJWT ExpiredSignatureError) else None.
Proof. intros He. unfold validate_exp. rewrite He. reflexivity. Qed.

(** A successful decode hands back the payload of the token. *)
Lemma decode_Returns_inv tok key algs now p :
  decode tok key algs now = Returns p →
  ∃ alg, tok = Compact alg p (sign key alg p) ∧ alg ∈ algs
         ∧ registered_claims_ok p (datetime.timegm now) = true
         ∧ ∀ e, p !! "exp"%string = Some (JInt e) → datetime.timegm now ≤ e.
Proof.
  unfold decode. destruct tok as [alg q sig | raw]; [ | discriminate ].
  destruct (bool_decide (alg ∈ algs)) eqn:Halg; simpl; [ | discriminate ].
  destruct (bool_decide (sig = sign key alg q)) eqn:Hsig; simpl; [ | discriminate ].
  apply bool_decide_eq_true in Halg, Hsig. subst sig.
  destruct (validate_claims q (datetime.timegm now)) as [r | ] eqn:Hv; [ discriminate | ].
  intros [= <-]. apply validate_claims_None in Hv as [Hok Hexp].
  exists alg. repeat split; auto.
  intros e He. rewrite (validate_exp_int _ _ _ He) in Hexp.
  destruct (e <? datetime.timegm now) eqn:Hlt; [ discriminate | ].
  apply Z.ltb_ge in Hlt. lia.
Qed.

Lemma decode_well_signed key alg algs p now e :
  alg ∈ algs →
  registered_claims_ok p (datetime.timegm now) = true →
  p !! "exp"%string = Some (JInt e) → datetime.timegm now ≤ e →
  decode (Compact alg p (sign key alg p)) key algs now = Returns p.
Proof.
  intros Halg Hok Hexp Hle. unfold decode.
  rewrite (bool_decide_eq_true_2 _ Halg). simpl.
  rewrite (bool_decide_eq_true_2 _ eq_refl). simpl.
  assert (validate_claims p (datetime.timegm now) = None) as ->; [ | reflexivity ].
  apply validate_claims_None. split; [ exact Hok | ].
  rewrite (validate_exp_int _ _ _ Hexp).
  destruct (e <? datetime.timegm now) eqn:Hlt; [ | reflexivity ].
  apply Z.ltb_lt in Hlt. lia.
Qed.

(** Past an integer [exp], decoding does not return: it raises. *)
Lemma decode_expired key alg algs p sig now e :
  p !! "exp"%string = Some (JInt e) → e < datetime.timegm now →
  ∃ x, decode (Compact alg p sig) key algs now = Raises x.
Proof.
  intros Hexp Hlt.
  destruct (decode (Compact alg p sig) key algs now) as [q | x] eqn:Hd; [ | eauto ].
  apply decode_Returns_inv in Hd as (a & [= -> -> ->] & _ & _ & Hle).
  specialize (Hle e Hexp). lia.
Qed.

(** Past an integer [exp], with the other registered claims accepted: a
    [JWTError]. *)
Lemma decode_expired_JWTError key alg algs p sig now e :
  p !! "exp"%string = Some (JInt e) → e < datetime.timegm now →
  registered_claims_ok p (datetime.timegm now) = true →
  ∃ j, decode (Compact alg p sig) key algs now = Raises (JWT j).
Proof.
  intros Hexp Hlt Hok. unfold decode.
  destruct (negb (bool_decide (alg ∈ algs))); eauto.
  destruct (negb (bool_decide (sig = sign key alg p))); eauto.
  unfold validate_claims. unfold registered_claims_ok in Hok.
  apply bool_decide_eq_true in Hok as (-> & -> & _).
  rewrite (validate_exp_int _ _ _ Hexp).
  apply Z.ltb_lt in Hlt. rewrite Hlt. simpl. eauto.
Qed.

(** A token the service signed, past its integer [exp], with the other
    registered claims accepted: [ExpiredSignatureError]. *)
Lemma decode_expired_service_token key alg p now e :
  p !! "exp"%string = Some (JInt e) → e < datetime.timegm now →
  registered_claims_ok p (datetime.timegm now) = true →
  decode (Compact alg p (sign key alg p)) key [alg] now
  = Raises (JWT ExpiredSignatureError).
Proof.
  intros Hexp Hlt Hok. unfold decode.
  rewrite bool_decide_eq_true_2 by constructor. simpl.
  rewrite (bool_decide_eq_true_2 _ eq_refl). simpl.
  unfold validate_claims. unfold registered_claims_ok in Hok.
  apply bool_decide_eq_true in Hok as (-> & -> & _).
  rewrite (validate_exp_int _ _ _ Hexp).
  apply Z.ltb_lt in Hlt. rewrite Hlt. reflexivity.
Qed.

(** A null [iat] or [nbf] in a token the service signed: [TypeError],
    whatever the other claims and the clock. *)
Lemma decode_null_time_claim key alg p now :
  p !! "iat"%string = Some JNull
  ∨ (validate_iat p = None ∧ p !! "nbf"%string = Some JNull) →
  decode (Compact alg p (sign key alg p)) key [alg] now = Raises TypeError.
Proof.
  intros Hnull. unfold decode.
  rewrite bool_decide_eq_true_2 by constructor. simpl.
  rewrite (bool_decide_eq_true_2 _ eq_refl). simpl.
  unfold validate_claims.
  destruct Hnull as [Hiat | [Hiat Hnbf]].
  - unfold validate_iat. rewrite Hiat. reflexivity.
  - rewrite Hiat. unfold validate_nbf. rewrite Hnbf. reflexivity.
Qed.

Lemma decode_tampered key alg algs p sig now :
  sig ≠ sign key alg p →
  decode (Compact alg p sig) key algs now = Raises (JWT JWTError_base).
Proof.
  intros Hsig. unfold decode.
  destruct (bool_decide (alg ∈ algs)); simpl; [ | reflexivity ].
  rewrite (bool_decide_eq_false_2 _ Hsig). reflexivity.
Qed.

End jose_facts.

(* ===================================================================== *)
(** ** The auth gate: [get_current_user]                                   *)
(* ===================================================================== *)

Section auth_gate.
Context `{L : Lib}.
Variable settings : Settings.
Variable get_user_by_username : json → option User.

Abbreviation gate := (get_current_user settings get_user_by_username).
Abbreviation decoded now tok :=
  (decode tok (JWT_SECRET settings) [JWT_ALGORITHM settings] now).

(** Any [JWTError] of [jwt.decode] is answered with the 401. *)
Lemma get_current_user_decode_failure now tok j :
  decoded now tok = Raises (JWT j) →
  gate now tok = Raises (HTTP credentials_exception).
Proof. intros Hd. unfold get_current_user. rewrite Hd. reflexivity. Qed.


(** Expired token, its other registered claims accepted: 401. *)
Lemma get_current_user_expired now alg p sig e :
  p !! "exp"%string = Some (JInt e) → e < datetime.timegm now →
  registered_claims_ok p (datetime.timegm now) = true →
  gate now (Compact alg p sig) = Raises (HTTP credentials_exception).
Proof.
  intros Hexp Hlt Hok.
  destruct (decode_expired_JWTError (JWT_SECRET settings) alg
              [JWT_ALGORITHM settings] p sig now e Hexp Hlt Hok) as [j Hj].
  eapply get_current_user_decode_failure, Hj.
Qed.

(** Tampered signature: 401. *)
Lemma get_current_user_tampered now alg p sig :
  sig ≠ sign (JWT_SECRET settings) alg p →
  gate now (Compact alg p sig) = Raises (HTTP credentials_exception).
Proof.
  intros Hsig. eapply get_current_user_decode_failure, decode_tampered, Hsig.
Qed.



(** Token accepted, subject known: the user of the directory. *)
Lemma get_current_user_known_subject now tok p u user :
  decoded now tok = Returns p → p !! "sub"%string = Some u → u ≠ JNull →
  get_user_by_username u = Some user →
  gate now tok = Returns user.
Proof.
  intros Hd Hs Hn Hu. unfold get_current_user, subscript. rewrite Hd, Hs.
  rewrite (bool_decide_eq_false_2 _ Hn). simpl. rewrite Hu. reflexivity.
Qed.


(** C1 (the code departs from the claim). A token that decodes to a payload
    without a [sub] key is not answered with the 401: [payload["sub"]]
    raises [KeyError], which [except JWTError] does not catch, so the
    [KeyError] leaves [get_current_user]. *)
Theorem get_current_user_absent_sub_KeyError now tok p :
  decoded now tok = Returns p →
  p !! "sub"%string = None →
  gate now tok = Raises (KeyError "sub")
  ∧ gate now tok ≠ Raises (HTTP credentials_exception).
Proof.
  intros Hd Hs.
  assert (gate now tok = Raises (KeyError "sub")) as ->.
  { unfold get_current_user, subscript. rewrite Hd, Hs. reflexivity. }
  split; [ reflexivity | discriminate ].
Qed.

End auth_gate.

Lemma get_current_user_absent_sub_KeyError_witness :
  let tok := fixtures.signed fixtures.settings0 {[ "exp"%string := JInt 5 ]} in
  @get_current_user fixtures.toy_lib fixtures.settings0 fixtures.directory0 1000000 tok
    = Raises (KeyError "sub")
  ∧ @get_current_user fixtures.toy_lib fixtures.settings0 fixtures.directory0 1000000 tok
    ≠ Raises (HTTP credentials_exception).
Proof.
  apply (@get_current_user_absent_sub_KeyError fixtures.toy_lib fixtures.settings0
           fixtures.directory0 1000000 _ {[ "exp"%string := JInt 5 ]});
    vm_compute; reflexivity.
Defined.

(** The gate run on five tokens at clock reading 10 s: a good token of a
    known user; an expired one; one whose signature was altered; one whose
    subject is unknown; one that does not parse. *)
Example get_current_user_runs :
  let gate := @get_current_user fixtures.toy_lib fixtures.settings0
                fixtures.directory0 10000000 in
  let good := <["exp"%string := JInt 60]> fixtures.claims_alice in
  let stale := <["exp"%string := JInt 9]> fixtures.claims_alice in
  let stranger := {[ "sub"%string := JStr "carol"; "exp"%string := JInt 60 ]} in
  gate (fixtures.signed fixtures.settings0 good) = Returns fixtures.alice
  ∧ gate (fixtures.signed fixtures.settings0 stale)
    = Raises (HTTP credentials_exception)
  ∧ gate (Compact "HS256" good "forged") = Raises (HTTP credentials_exception)
  ∧ gate (fixtures.signed fixtures.settings0 stranger)
    = Raises (HTTP credentials_exception)
  ∧ gate (Malformed "not.a.token") = Raises (HTTP credentials_exception).
Proof. vm_compute. repeat split. Qed.

(* ===================================================================== *)
(** ** Email-verification tokens: [get_email_from_token]                   *)
(* ===================================================================== *)

Section email_subject.
Context `{L : Lib}.
Variable settings : Settings.

Abbreviation decoded now tok :=
  (decode tok (JWT_SECRET settings) [JWT_ALGORITHM settings] now).

(** Any [JWTError] of [jwt.decode] is answered with the 422. *)
Lemma get_email_from_token_decode_failure now tok j :
  decoded now tok = Raises (JWT j) →
  get_email_from_token settings now tok = Raises (HTTP invalid_email_token).
Proof. intros Hd. unfold get_email_from_token. rewrite Hd. reflexivity. Qed.


(** Decode succeeds and [sub] is present: its value is returned. *)
Lemma get_email_from_token_subject now tok p v :
  decoded now tok = Returns p → p !! "sub"%string = Some v →
  get_email_from_token settings now tok = Returns v.
Proof.
  intros Hd Hs. unfold get_email_from_token, subscript. rewrite Hd, Hs. reflexivity.
Qed.

(** C4 (the code departs from the claim). When the decoded payload has no
    [sub] key, [get_email_from_token] does not answer with the 422:
    [payload["sub"]] raises [KeyError], which [except JWTError] lets
    through. *)
Theorem get_email_from_token_absent_sub_KeyError now tok p :
  decoded now tok = Returns p →
  p !! "sub"%string = None →
  get_email_from_token settings now tok = Raises (KeyError "sub")
  ∧ get_email_from_token settings now tok ≠ Raises (HTTP invalid_email_token).
Proof.
  intros Hd Hs.
  assert (get_email_from_token settings now tok = Raises (KeyError "sub")) as ->.
  { unfold get_email_from_token, subscript. rewrite Hd, Hs. reflexivity. }
  split; [ reflexivity | discriminate ].
Qed.

End email_subject.

Lemma get_email_from_token_absent_sub_KeyError_witness :
  let tok := fixtures.signed fixtures.settings0 {[ "exp"%string := JInt 5 ]} in
  @get_email_from_token fixtures.toy_lib fixtures.settings0 1000000 tok
    = Raises (KeyError "sub")
  ∧ @get_email_from_token fixtures.toy_lib fixtures.settings0 1000000 tok
    ≠ Raises (HTTP invalid_email_token).
Proof.
  apply (@get_email_from_token_absent_sub_KeyError fixtures.toy_lib fixtures.settings0
           1000000 _ {[ "exp"%string := JInt 5 ]});
    vm_compute; reflexivity.
Defined.

(* ===================================================================== *)
(** ** Issuing tokens: the store and the payload                           *)
(* ===================================================================== *)

Abbreviation intdates := (map_imap (λ k v, Some (intdate k v))).

Section issuing.
Context `{L : Lib}.

Lemma lookup_intdates (d : gmap string pyval) k :
  intdates d !! k = intdate k <$> d !! k.
Proof. rewrite map_lookup_imap. destruct (d !! k); reflexivity. Qed.

Lemma intdates_json (dj : gmap string json) :
  intdates (PJson <$> dj) = PJson <$> dj.
Proof.
  apply map_eq. intros k. rewrite lookup_intdates, !lookup_fmap.
  destruct (dj !! k); reflexivity.
Qed.

Lemma intdates_insert_time (d : gmap string pyval) k us :
  k ∈ time_claims →
  intdates (<[k := PDatetime us]> d)
  = <[k := PJson (JInt (datetime.timegm us))]> (intdates d).
Proof.
  intros Hk. apply map_eq. intros i. rewrite lookup_intdates.
  destruct (decide (k = i)) as [<- | Hne].
  - rewrite !lookup_insert_eq. simpl. rewrite (bool_decide_eq_true_2 _ Hk). reflexivity.
  - rewrite !lookup_insert_ne by done. rewrite lookup_intdates. reflexivity.
Qed.

Lemma exp_is_time_claim : "exp"%string ∈ time_claims.
Proof. unfold time_claims. repeat constructor. Qed.

Lemma iat_is_time_claim : "iat"%string ∈ time_claims.
Proof. unfold time_claims. repeat constructor. Qed.

Lemma omap_as_json_fmap (dj : gmap string json) :
  omap as_json (PJson <$> dj) = dj.
Proof.
  apply map_eq. intros k. rewrite lookup_omap, lookup_fmap.
  destruct (dj !! k); reflexivity.
Qed.

Lemma serialisable_fmap (dj : gmap string json) :
  serialisable (PJson <$> dj) = true.
Proof.
  apply bool_decide_eq_true_2. intros k v. rewrite lookup_fmap.
  destruct (dj !! k); intros [= <-]. eauto.
Qed.

(** What [jwt.encode] does to the store and what it returns. *)
Lemma encode_run h l d key alg :
  h !! l = Some d →
  encode l key alg h
  = if serialisable (intdates d)
    then Some (Returns (Compact alg (omap as_json (intdates d))
                          (sign key alg (omap as_json (intdates d)))),
               <[l := intdates d]> h)
    else Some (Raises TypeError, <[l := intdates d]> h).
Proof. intros Hl. unfold encode. rewrite Hl. reflexivity. Qed.

(** The cell [dict_copy] allocates is new: writing it leaves every other
    object as it was. *)
Lemma fresh_cell_free (h : gmap loc (gmap string pyval)) : h !! fresh (dom h) = None.
Proof. apply not_elem_of_dom, is_fresh. Qed.

Lemma fresh_cell_frame (h : gmap loc (gmap string pyval)) l d d' :
  h !! l = Some d → <[fresh (dom h) := d']> h !! l = Some d.
Proof.
  intros Hl. rewrite lookup_insert_ne; [ done | ].
  intros Heq. rewrite <- Heq, fresh_cell_free in Hl. discriminate.
Qed.

End issuing.

Section datetime_facts.

Lemma add_seconds_ok dt n :
  datetime.seconds_later_ok dt n →
  datetime.add dt (datetime.timedelta_seconds n) = Returns (dt + n * 1000000).
Proof.
  intros [Hd Hs]. unfold datetime.add, datetime.timedelta_seconds.
  rewrite (bool_decide_eq_true_2 _ Hd), (bool_decide_eq_true_2 _ Hs). reflexivity.
Qed.

Lemma timegm_add_seconds dt n :
  datetime.timegm (dt + n * 1000000) = datetime.timegm dt + n.
Proof. unfold datetime.timegm. apply Z.div_add. lia. Qed.

Lemma timegm_mono a b : a ≤ b → datetime.timegm a ≤ datetime.timegm b.
Proof. intros. unfold datetime.timegm. apply Z.div_le_mono; lia. Qed.

(** Lines 42 to 45: a supplied, non-zero [expires_delta] is used. *)
Lemma access_expiry_supplied settings now n :
  n ≠ 0 → datetime.seconds_later_ok now n →
  access_expiry settings now (Some n) = Returns (now + n * 1000000).
Proof.
  intros Hn Hok. unfold access_expiry, truthy.
  apply Z.eqb_neq in Hn. rewrite Hn. simpl. apply add_seconds_ok, Hok.
Qed.

(** Lines 42 to 45: [None] and [0] both fail the test [if expires_delta:]. *)
Lemma access_expiry_falsy settings now x :
  x = None ∨ x = Some 0 →
  datetime.seconds_later_ok now (JWT_EXPIRATION_SECONDS settings) →
  access_expiry settings now x
  = Returns (now + JWT_EXPIRATION_SECONDS settings * 1000000).
Proof.
  intros [-> | ->] Hok; unfold access_expiry; simpl; apply add_seconds_ok, Hok.
Qed.

End datetime_facts.

Section access_tokens.
Context `{L : Lib}.
Variable settings : Settings.

Abbreviation key := (JWT_SECRET settings).
Abbreviation alg := (JWT_ALGORITHM settings).

(** [create_access_token], run on a store where [data] holds [d]. *)
Lemma create_access_token_run now data x h d :
  h !! data = Some d →
  create_access_token settings now data x h
  = match access_expiry settings now x with
    | Returns t =>
        let d' := intdates (<["exp"%string := PDatetime t]> d) in
        if serialisable d'
        then Some (Returns (Compact alg (omap as_json d')
                              (sign key alg (omap as_json d'))),
                   <[fresh (dom h) := d']> h)
        else Some (Raises TypeError, <[fresh (dom h) := d']> h)
    | Raises e => Some (Raises e, <[fresh (dom h) := d]> h)
    end.
Proof.
  intros Hd. unfold create_access_token, mbind, py_bind, dict_copy, lift.
  rewrite Hd. simpl.
  destruct (access_expiry settings now x) as [t | e]; [ | reflexivity ].
  unfold dict_update. rewrite lookup_insert_eq, insert_insert_eq.
  erewrite encode_run by apply lookup_insert_eq.
  rewrite insert_insert_eq. reflexivity.
Qed.

(** On a dictionary of JSON values the token carries the input claims with
    [exp] set to the expiry in whole seconds. *)
Lemma create_access_token_json now data x h (dj : gmap string json) t :
  h !! data = Some (PJson <$> dj) →
  access_expiry settings now x = Returns t →
  let p := <["exp"%string := JInt (datetime.timegm t)]> dj in
  create_access_token settings now data x h
  = Some (Returns (Compact alg p (sign key alg p)),
          <[fresh (dom h) := PJson <$> p]> h).
Proof.
  intros Hd Ht p. rewrite (create_access_token_run _ _ _ _ _ Hd), Ht. simpl.
  rewrite (intdates_insert_time _ _ _ exp_is_time_claim).
  rewrite intdates_json, <- fmap_insert.
  rewrite serialisable_fmap, omap_as_json_fmap. reflexivity.
Qed.

(** A supplied non-zero [expires_delta]: [exp] is [now + expires_delta]. *)
Lemma create_access_token_supplied now data n h (dj : gmap string json) :
  h !! data = Some (PJson <$> dj) → n ≠ 0 → datetime.seconds_later_ok now n →
  let p := <["exp"%string := JInt (datetime.timegm now + n)]> dj in
  create_access_token settings now data (Some n) h
  = Some (Returns (Compact alg p (sign key alg p)),
          <[fresh (dom h) := PJson <$> p]> h).
Proof.
  intros Hd Hn Hok. rewrite <- timegm_add_seconds.
  apply create_access_token_json; [ done | ]. by apply access_expiry_supplied.
Qed.

(** No [expires_delta]: [exp] is [now + JWT_EXPIRATION_SECONDS]. *)
Lemma create_access_token_default now data h (dj : gmap string json) :
  h !! data = Some (PJson <$> dj) →
  datetime.seconds_later_ok now (JWT_EXPIRATION_SECONDS settings) →
  let p := <["exp"%string :=
             JInt (datetime.timegm now + JWT_EXPIRATION_SECONDS settings)]> dj in
  create_access_token settings now data None h
  = Some (Returns (Compact alg p (sign key alg p)),
          <[fresh (dom h) := PJson <$> p]> h).
Proof.
  intros Hd Hok. rewrite <- timegm_add_seconds.
  apply create_access_token_json; [ done | ]. apply access_expiry_falsy; auto.
Qed.

(** C5 (the code departs from the claim). Supplying [expires_delta = 0] is
    the same as supplying nothing: the test [if expires_delta:] is false
    for [0], so [exp] is [now + JWT_EXPIRATION_SECONDS], not [now + 0]. *)
Theorem create_access_token_zero_ttl now data h (dj : gmap string json) :
  h !! data = Some (PJson <$> dj) →
  datetime.seconds_later_ok now (JWT_EXPIRATION_SECONDS settings) →
  create_access_token settings now data (Some 0) h
  = create_access_token settings now data None h
  ∧ ∃ tok h',
      create_access_token settings now data (Some 0) h = Some (Returns tok, h')
      ∧ payload_of tok
        = <["exp"%string :=
            JInt (datetime.timegm now + JWT_EXPIRATION_SECONDS settings)]> dj.
Proof.
  intros Hd Hok.
  pose proof (create_access_token_default now data h dj Hd Hok) as Hnone.
  assert (create_access_token settings now data (Some 0) h
          = create_access_token settings now data None h) as Heq.
  { rewrite !(create_access_token_run _ _ _ _ _ Hd). reflexivity. }
  split; [ exact Heq | ].
  rewrite Heq. simpl in Hnone. rewrite Hnone. eexists _, _. split; reflexivity.
Qed.

End access_tokens.

Lemma create_access_token_zero_ttl_witness :
  @create_access_token fixtures.toy_lib fixtures.settings0 1500000 1%positive
     (Some 0) fixtures.heap0
  = @create_access_token fixtures.toy_lib fixtures.settings0 1500000 1%positive
     None fixtures.heap0
  ∧ ∃ tok h',
      @create_access_token fixtures.toy_lib fixtures.settings0 1500000 1%positive
         (Some 0) fixtures.heap0 = Some (Returns tok, h')
      ∧ payload_of tok
        = <["exp"%string := JInt (datetime.timegm 1500000 + 3600)]>
            fixtures.claims_alice.
Proof.
  apply (@create_access_token_zero_ttl fixtures.toy_lib fixtures.settings0
           1500000 1%positive fixtures.heap0 fixtures.claims_alice).
  - reflexivity.
  - vm_compute. intuition discriminate.
Defined.

Section email_tokens.
Context `{L : Lib}.
Variable settings : Settings.

Abbreviation key := (JWT_SECRET settings).
Abbreviation alg := (JWT_ALGORITHM settings).

(** [create_email_token], run on a store where [data] holds [d]. *)
Lemma create_email_token_run now_exp now_iat data h d :
  h !! data = Some d →
  create_email_token settings now_exp now_iat data h
  = match datetime.add now_exp (datetime.timedelta_days 7) with
    | Returns t =>
        let d' := intdates (<["exp"%string := PDatetime t]>
                              (<["iat"%string := PDatetime now_iat]> d)) in
        if serialisable d'
        then Some (Returns (Compact alg (omap as_json d')
                              (sign key alg (omap as_json d'))),
                   <[fresh (dom h) := d']> h)
        else Some (Raises TypeError, <[fresh (dom h) := d']> h)
    | Raises e => Some (Raises e, <[fresh (dom h) := d]> h)
    end.
Proof.
  intros Hd. unfold create_email_token.
  generalize (datetime.add now_exp (datetime.timedelta_days 7)). intros r.
  unfold mbind, py_bind, dict_copy, lift. rewrite Hd. simpl.
  destruct r as [t | e]; [ | reflexivity ].
  unfold dict_update. rewrite lookup_insert_eq, insert_insert_eq.
  erewrite encode_run by apply lookup_insert_eq.
  rewrite insert_insert_eq. reflexivity.
Qed.

Lemma add_seven_days now_exp :
  datetime.MIN ≤ now_exp + 604800 * 1000000 ≤ datetime.MAX →
  datetime.add now_exp (datetime.timedelta_days 7)
  = Returns (now_exp + 604800 * 1000000).
Proof.
  intros Hr. unfold datetime.add, datetime.timedelta_days.
  rewrite bool_decide_eq_true_2 by lia.
  change (7 * 86400 * 1000000) with (604800 * 1000000).
  rewrite (bool_decide_eq_true_2 _ Hr). reflexivity.
Qed.

(** On a dictionary of JSON values the token carries the input claims with
    [iat] set to the second reading and [exp] to the first reading plus
    seven days, both in whole seconds. *)
Lemma create_email_token_json now_exp now_iat data h (dj : gmap string json) :
  h !! data = Some (PJson <$> dj) →
  datetime.MIN ≤ now_exp + 604800 * 1000000 ≤ datetime.MAX →
  let p := <["exp"%string := JInt (datetime.timegm now_exp + 604800)]>
             (<["iat"%string := JInt (datetime.timegm now_iat)]> dj) in
  create_email_token settings now_exp now_iat data h
  = Some (Returns (Compact alg p (sign key alg p)),
          <[fresh (dom h) := PJson <$> p]> h).
Proof.
  intros Hd Hr p. rewrite (create_email_token_run _ _ _ _ _ Hd).
  rewrite (add_seven_days _ Hr). simpl.
  rewrite (intdates_insert_time _ _ _ exp_is_time_claim).
  rewrite (intdates_insert_time _ _ _ iat_is_time_claim).
  rewrite intdates_json, <- !fmap_insert, timegm_add_seconds.
  rewrite serialisable_fmap, omap_as_json_fmap. reflexivity.
Qed.

(** When both clock readings fall in the same second, the two claims are
    exactly seven days apart. *)
Lemma create_email_token_same_second now_exp now_iat data h (dj : gmap string json) :
  h !! data = Some (PJson <$> dj) →
  datetime.MIN ≤ now_exp + 604800 * 1000000 ≤ datetime.MAX →
  datetime.timegm now_iat = datetime.timegm now_exp →
  ∃ tok h' iat exp,
    create_email_token settings now_exp now_iat data h = Some (Returns tok, h')
    ∧ payload_of tok !! "iat"%string = Some (JInt iat)
    ∧ payload_of tok !! "exp"%string = Some (JInt exp)
    ∧ iat < exp ∧ exp - iat = 604800.
Proof.
  intros Hd Hr Hs. pose proof (create_email_token_json _ now_iat _ _ _ Hd Hr) as Hrun.
  simpl in Hrun. rewrite Hrun. eexists _, _, _, _. split; [ reflexivity | ]. simpl.
  rewrite lookup_insert_ne by done. rewrite !lookup_insert_eq.
  repeat split; lia.
Qed.

(** C6 (the code departs from the claim). The expiry is computed from one
    reading of the clock and [iat] from a later one; the token carries both
    in whole seconds. When a second boundary lies between the two readings,
    [exp - iat] is less than seven days. *)
Theorem create_email_token_lifetime_short now_exp now_iat data h
    (dj : gmap string json) :
  h !! data = Some (PJson <$> dj) →
  datetime.MIN ≤ now_exp + 604800 * 1000000 ≤ datetime.MAX →
  datetime.timegm now_exp < datetime.timegm now_iat →
  ∃ tok h' iat exp,
    create_email_token settings now_exp now_iat data h = Some (Returns tok, h')
    ∧ payload_of tok !! "iat"%string = Some (JInt iat)
    ∧ payload_of tok !! "exp"%string = Some (JInt exp)
    ∧ exp - iat = 604800 - (datetime.timegm now_iat - datetime.timegm now_exp)
    ∧ exp - iat < 604800.
Proof.
  intros Hd Hr Hs. pose proof (create_email_token_json _ now_iat _ _ _ Hd Hr) as Hrun.
  simpl in Hrun. rewrite Hrun. eexists _, _, _, _. split; [ reflexivity | ]. simpl.
  rewrite lookup_insert_ne by done. rewrite !lookup_insert_eq.
  repeat split; lia.
Qed.

End email_tokens.

Lemma create_email_token_lifetime_short_witness :
  ∃ tok h' iat exp,
    @create_email_token fixtures.toy_lib fixtures.settings0 1999999 2000000
       1%positive fixtures.heap0 = Some (Returns tok, h')
    ∧ payload_of tok !! "iat"%string = Some (JInt iat)
    ∧ payload_of tok !! "exp"%string = Some (JInt exp)
    ∧ exp - iat = 604800 - (datetime.timegm 2000000 - datetime.timegm 1999999)
    ∧ exp - iat < 604800.
Proof.
  apply (@create_email_token_lifetime_short fixtures.toy_lib fixtures.settings0
           1999999 2000000 1%positive fixtures.heap0 fixtures.claims_alice).
  - reflexivity.
  - vm_compute. intuition discriminate.
  - reflexivity.
Defined.

(* ===================================================================== *)
(** ** Issue, then decode                                                  *)
(* ===================================================================== *)

Section round_trip.
Context `{L : Lib}.
Variable settings : Settings.

Abbreviation key := (JWT_SECRET settings).
Abbreviation alg := (JWT_ALGORITHM settings).

(** The expiry is compared in whole seconds: a token issued at [now] for
    [n] seconds is accepted at [now'] exactly when the second of [now'] is
    not past the second of [now] plus [n] (and the library accepts the
    other registered claims). *)
Lemma issued_token_decodes_iff now now' n (dj : gmap string json) :
  let p := <["exp"%string := JInt (datetime.timegm now + n)]> dj in
  registered_claims_ok p (datetime.timegm now') = true →
  (datetime.timegm now' ≤ datetime.timegm now + n ↔
   decode (Compact alg p (sign key alg p)) key [alg] now' = Returns p).
Proof.
  intros p Hok. split.
  - intros Hle. eapply decode_well_signed; [ constructor | exact Hok | | exact Hle ].
    unfold p. apply lookup_insert_eq.
  - intros Hdec. apply decode_Returns_inv in Hdec as (a & _ & _ & _ & Hexp).
    apply Hexp. unfold p. apply lookup_insert_eq.
Qed.

(** C7 (amended). For a non-zero [n] a token issued at [now] with
    [expires_delta = n] decodes, at any instant less than [n] seconds after
    [now], to the input claims plus [exp] (provided the library accepts the
    other registered claims); at any instant [n + 1] seconds or more after
    [now] decoding does not return but raises, and what it raises is
    [ExpiredSignatureError], a [JWTError], when the library accepts the
    other registered claims. *)
Theorem access_token_round_trip now now' data n h (dj : gmap string json) :
  h !! data = Some (PJson <$> dj) →
  n ≠ 0 →
  datetime.seconds_later_ok now n →
  ∃ tok h',
    create_access_token settings now data (Some n) h = Some (Returns tok, h')
    ∧ let p := <["exp"%string := JInt (datetime.timegm now + n)]> dj in
      (now' - now < n * 1000000 →
       registered_claims_ok p (datetime.timegm now') = true →
       decode tok key [alg] now' = Returns p)
      ∧ ((n + 1) * 1000000 ≤ now' - now →
         (∃ x, decode tok key [alg] now' = Raises x)
         ∧ (registered_claims_ok p (datetime.timegm now') = true →
            decode tok key [alg] now' = Raises (JWT ExpiredSignatureError))).
Proof.
  intros Hd Hn Hok.
  pose proof (create_access_token_supplied settings now data n h dj Hd Hn Hok) as Hrun.
  simpl in Hrun. rewrite Hrun. eexists _, _. split; [ reflexivity | ].
  intros p. split.
  - intros Hlt Hc. apply issued_token_decodes_iff; [ exact Hc | ].
    rewrite <- timegm_add_seconds. apply timegm_mono. lia.
  - intros Hge.
    assert (datetime.timegm now + n < datetime.timegm now') as Hpast.
    { assert (datetime.timegm (now + (n + 1) * 1000000) ≤ datetime.timegm now')
        by (apply timegm_mono; lia).
      rewrite timegm_add_seconds in *. lia. }
    split.
    + eapply decode_expired; [ apply lookup_insert_eq | exact Hpast ].
    + intros Hc. eapply decode_expired_service_token;
        [ apply lookup_insert_eq | exact Hpast | exact Hc ].
Qed.

End round_trip.

Lemma access_token_round_trip_witness :
  ∃ tok h',
    @create_access_token fixtures.toy_lib fixtures.settings0 500000 1%positive
       (Some 60) fixtures.heap0 = Some (Returns tok, h')
    ∧ let p := <["exp"%string := JInt (datetime.timegm 500000 + 60)]>
                 fixtures.claims_alice in
      (30000000 - 500000 < 60 * 1000000 →
       fixtures.toy_claims_ok p (datetime.timegm 30000000) = true →
       @decode fixtures.toy_lib tok "s3cret" ["HS256"%string] 30000000 = Returns p)
      ∧ ((60 + 1) * 1000000 ≤ 30000000 - 500000 →
         (∃ x, @decode fixtures.toy_lib tok "s3cret" ["HS256"%string] 30000000
               = Raises x)
         ∧ (fixtures.toy_claims_ok p (datetime.timegm 30000000) = true →
            @decode fixtures.toy_lib tok "s3cret" ["HS256"%string] 30000000
            = Raises (JWT ExpiredSignatureError))).
Proof.
  apply (@access_token_round_trip fixtures.toy_lib fixtures.settings0 500000
           30000000 1%positive 60 fixtures.heap0 fixtures.claims_alice).
  - reflexivity.
  - lia.
  - vm_compute. intuition discriminate.
Defined.

(** C7 (as stated, refuted). Issued at 0.5 s with [expires_delta = 1] and
    decoded at 1.9 s, 1.4 s later, the token is still accepted: its [exp]
    is second 1, and second 1 is not past it. Issued with
    [expires_delta = 0] under a configured default of 3600 s, the token is
    accepted 10 s later. And issued with [expires_delta = 1] for claims
    that hold a null [iat], the token decoded 10 s later raises
    [TypeError], which is not a [JWTError]. *)
Lemma access_token_round_trip_counterexample :
  (∃ tok h' p,
     @create_access_token fixtures.toy_lib fixtures.settings0 500000 1%positive
        (Some 1) fixtures.heap0 = Some (Returns tok, h')
     ∧ 1 * 1000000 < 1900000 - 500000
     ∧ @decode fixtures.toy_lib tok "s3cret" ["HS256"%string] 1900000 = Returns p)
  ∧ (∃ tok h' p,
       @create_access_token fixtures.toy_lib fixtures.settings0 500000 1%positive
          (Some 0) fixtures.heap0 = Some (Returns tok, h')
       ∧ 0 * 1000000 < 10500000 - 500000
       ∧ @decode fixtures.toy_lib tok "s3cret" ["HS256"%string] 10500000 = Returns p)
  ∧ (∃ tok h',
       @create_access_token fixtures.toy_lib fixtures.settings0 500000 5%positive
          (Some 1) samples.heap1 = Some (Returns tok, h')
       ∧ 1 * 1000000 < 10500000 - 500000
       ∧ @decode fixtures.toy_lib tok "s3cret" ["HS256"%string] 10500000
         = Raises TypeError
       ∧ ∀ j, Raises (A := gmap string json) TypeError ≠ Raises (JWT j)).
Proof.
  split; [ | split ].
  - eexists _, _, _. split; [ vm_compute; reflexivity | ].
    split; [ lia | vm_compute; reflexivity ].
  - eexists _, _, _. split; [ vm_compute; reflexivity | ].
    split; [ lia | vm_compute; reflexivity ].
  - eexists _, _. split; [ vm_compute; reflexivity | ].
    split; [ lia | ]. split; [ vm_compute; reflexivity | discriminate ].
Qed.

(* ===================================================================== *)
(** ** The caller's dictionary                                             *)
(* ===================================================================== *)

Section frame.
Context `{L : Lib}.
Variable settings : Settings.




End frame.



(* ===================================================================== *)
(** ** The contact service                                                 *)
(* ===================================================================== *)

(** With the repository kept in memory: what one user stores does not
    stand in the way of another user storing the same body. *)
Lemma mem_create_contact_other_user (body : ContactModel) (user other : User)
    (rows : list Contact) :
  user_id other ≠ user_id user →
  mem_is_contact_exists (email body) (phone body) other rows = false →
  let rows' := store (@run _ _ in_memory (create_contact body user) rows) in
  ∃ row, result (@run _ _ in_memory (create_contact body other) rows') = Returns row
         ∧ fields row = body ∧ owner_id row = user_id other.
Proof.
  intros Hne Hfree. simpl.
  destruct (mem_is_contact_exists (email body) (phone body) user rows); simpl.
  - rewrite Hfree. simpl. eauto.
  - unfold mem_is_contact_exists in *. rewrite existsb_app, Hfree. simpl.
    unfold owned_by at 1. simpl.
    rewrite bool_decide_eq_false_2 by congruence. simpl. eauto.
Qed.

Section contact_service.
Context {DB : Type} `{R : ContactRepository DB}.

(** One step of [run]. *)
Lemma run_Call {A X} (c : RepoCall X) (k : X → prog A) (db : DB) :
  run (Call c k) db
  = mkRun (result (run (k (handle c db).1) (handle c db).2))
          (store (run (k (handle c db).1) (handle c db).2))
          (Awaited c :: calls (run (k (handle c db).1) (handle c db).2)).
Proof. simpl. destruct (handle c db) as [x db']. reflexivity. Qed.

(** A method that looks a row up and raises the 404 when there is none. *)
Lemma run_lookup_or_404 (c : RepoCall (option Contact)) (db : DB) :
  let p := Call c (λ found, match found with
                            | None => Raise contact_not_found
                            | Some row => Ret row
                            end) in
  (result (run p db) = Raises (HTTP contact_not_found) ↔ (handle c db).1 = None)
  ∧ (∀ row, (handle c db).1 = Some row → result (run p db) = Returns row)
  ∧ store (run p db) = (handle c db).2
  ∧ calls (run p db) = [Awaited c].
Proof.
  intros p. unfold p. rewrite run_Call.
  destruct ((handle c db).1) as [row | ]; simpl.
  - repeat split; try done. by intros ? [= <-].
  - repeat split; done.
Qed.

(** C2. [create_contact] raises the 400, whose detail names the email and
    the phone of the body, exactly when the repository answers that a
    contact with that email or phone exists for the user; otherwise it
    returns what the repository's [create_contact] returns. With the
    repository of the specification, a body that one user has stored can
    still be stored by another user. *)
Theorem create_contact_duplicate_iff (body : ContactModel) (user : User) (db : DB) :
  let check := handle (IsContactExists (email body) (phone body) user) db in
  let r := run (create_contact body user) db in
  (result r = Raises (HTTP (duplicate_contact body)) ↔ check.1 = true)
  ∧ (check.1 = false →
     result r = Returns (handle (CreateContact body user) check.2).1)
  ∧ status_code (duplicate_contact body) = 400
  ∧ detail (duplicate_contact body)
    = ("Contact with '" +:+ email body +:+ "' email or '" +:+ phone body
       +:+ "' phone number already exists.")
  ∧ (∀ (rows : list Contact) (other : User),
       user_id other ≠ user_id user →
       mem_is_contact_exists (email body) (phone body) other rows = false →
       let rows' := store (@run _ _ in_memory (create_contact body user) rows) in
       ∃ row, result (@run _ _ in_memory (create_contact body other) rows')
              = Returns row
              ∧ fields row = body ∧ owner_id row = user_id other).
Proof.
  intros check r. unfold r, check, create_contact. rewrite run_Call.
  destruct ((handle (IsContactExists (email body) (phone body) user) db).1) eqn:Hc.
  - simpl. split; [ done | ]. split; [ done | ]. split; [ done | ].
    split; [ done | ]. intros rows other. apply mem_create_contact_other_user.
  - rewrite run_Call. simpl. split; [ split; discriminate | ].
    split; [ done | ]. split; [ done | ]. split; [ done | ].
    intros rows other. apply mem_create_contact_other_user.
Qed.

(** C3. Each of [get_contact], [update_contact] and [remove_contact] raises
    the 404 exactly when the repository returns [None] for the id and the
    user, and otherwise returns the contact the repository returned. *)
Theorem contact_not_found_iff (contact_id : Z) (body : ContactModel) (user : User)
    (db : DB) :
  status_code contact_not_found = 404
  ∧ (let found := (handle (GetContactById contact_id user) db).1 in
     let r := run (get_contact contact_id user) db in
     (result r = Raises (HTTP contact_not_found) ↔ found = None)
     ∧ (∀ row, found = Some row → result r = Returns row))
  ∧ (let found := (handle (UpdateContact contact_id body user) db).1 in
     let r := run (update_contact contact_id body user) db in
     (result r = Raises (HTTP contact_not_found) ↔ found = None)
     ∧ (∀ row, found = Some row → result r = Returns row))
  ∧ (let found := (handle (RemoveContact contact_id user) db).1 in
     let r := run (remove_contact contact_id user) db in
     (result r = Raises (HTTP contact_not_found) ↔ found = None)
     ∧ (∀ row, found = Some row → result r = Returns row)).
Proof.
  split; [ reflexivity | ].
  pose proof (run_lookup_or_404 (GetContactById contact_id user) db) as (Hg1 & Hg2 & _).
  pose proof (run_lookup_or_404 (UpdateContact contact_id body user) db) as (Hu1 & Hu2 & _).
  pose proof (run_lookup_or_404 (RemoveContact contact_id user) db) as (Hr1 & Hr2 & _).
  repeat split; try apply Hg1; try apply Hu1; try apply Hr1; auto.
Qed.

(** C10. When the duplicate check answers that a contact exists,
    [create_contact] raises the 400 having awaited that one call only: the
    repository's [create_contact] is not among the calls made, and the store
    is as the check left it, hence unchanged when the check is a query. *)
Theorem create_contact_duplicate_atomic (body : ContactModel) (user : User) (db : DB) :
  (handle (IsContactExists (email body) (phone body) user) db).1 = true →
  let r := run (create_contact body user) db in
  result r = Raises (HTTP (duplicate_contact body))
  ∧ calls r = [Awaited (IsContactExists (email body) (phone body) user)]
  ∧ Forall (λ ev, is_create ev = false) (calls r)
  ∧ store r = (handle (IsContactExists (email body) (phone body) user) db).2
  ∧ ((handle (IsContactExists (email body) (phone body) user) db).2 = db →
     store r = db).
Proof.
  intros Hc r. unfold r, create_contact. rewrite run_Call, Hc. simpl.
  repeat split; auto.
Qed.

End contact_service.

(** The scenario of the specification, on the repository kept in memory:
    the first body is stored; a second body with the same email, and a third
    with the same phone, are refused for the same user; the first body is
    accepted for another user. *)
Example create_contact_scenario :
  let r1 := @run _ _ in_memory (create_contact fixtures.body_a111 fixtures.alice) [] in
  let r2 := @run _ _ in_memory (create_contact fixtures.body_a222 fixtures.alice) (store r1) in
  let r3 := @run _ _ in_memory (create_contact fixtures.body_b111 fixtures.alice) (store r1) in
  let r4 := @run _ _ in_memory (create_contact fixtures.body_a111 fixtures.bob) (store r1) in
  result r1 = Returns (mkContact 1 1 fixtures.body_a111)
  ∧ result r2 = Raises (HTTP (duplicate_contact fixtures.body_a222))
  ∧ result r3 = Raises (HTTP (duplicate_contact fixtures.body_b111))
  ∧ result r4 = Returns (mkContact 2 2 fixtures.body_a111)
  ∧ store r2 = store r1 ∧ store r3 = store r1.
Proof. vm_compute. repeat split. Qed.

Lemma create_contact_duplicate_atomic_witness :
  let db := [mkContact 1 1 fixtures.body_a111] in
  let r := @run _ _ in_memory (create_contact fixtures.body_a222 fixtures.alice) db in
  result r = Raises (HTTP (duplicate_contact fixtures.body_a222))
  ∧ calls r = [Awaited (IsContactExists "a@x.com" "222" fixtures.alice)]
  ∧ Forall (λ ev, is_create ev = false) (calls r)
  ∧ store r = db
  ∧ (db = db → store r = db).
Proof.
  apply (@create_contact_duplicate_atomic _ in_memory fixtures.body_a222
           fixtures.alice [mkContact 1 1 fixtures.body_a111]).
  reflexivity.
Defined.

(* ===================================================================== *)
(** ** More on the auth gate                                               *)
(* ===================================================================== *)

Section gate_properties.
Context `{L : Lib}.
Variable settings : Settings.
Variable get_user_by_username : json → option User.

Abbreviation gate := (get_current_user settings get_user_by_username).
Abbreviation decoded now tok :=
  (decode tok (JWT_SECRET settings) [JWT_ALGORITHM settings] now).

(** The gate on a token that decodes: what is left is the subject test and
    the directory. *)
Lemma get_current_user_decoded now tok p :
  decoded now tok = Returns p →
  gate now tok
  = match p !! "sub"%string with
    | None => Raises (KeyError "sub")
    | Some u =>
        if bool_decide (u = JNull) then Raises (HTTP credentials_exception)
        else match get_user_by_username u with
             | Some user => Returns user
             | None => Raises (HTTP credentials_exception)
             end
    end.
Proof.
  intros Hd. unfold get_current_user, subscript. rewrite Hd.
  destruct (p !! "sub"%string) as [u | ]; [ | reflexivity ].
  destruct (bool_decide (u = JNull)); reflexivity.
Qed.

(** X1. A user is returned only for a token that parses, names the
    configured algorithm in its header, carries the signature of its payload
    under the configured secret, is not past an integer [exp], and whose
    [sub] is present, not null, and the name under which the directory holds
    that user. *)
Theorem get_current_user_sound now tok user :
  gate now tok = Returns user →
  ∃ p u,
    tok = Compact (JWT_ALGORITHM settings) p
            (sign (JWT_SECRET settings) (JWT_ALGORITHM settings) p)
    ∧ (∀ e, p !! "exp"%string = Some (JInt e) → datetime.timegm now ≤ e)
    ∧ p !! "sub"%string = Some u ∧ u ≠ JNull
    ∧ get_user_by_username u = Some user.
Proof.
  intros Hg. destruct (decoded now tok) as [p | e] eqn:Hd.
  - rewrite (get_current_user_decoded _ _ _ Hd) in Hg.
    apply decode_Returns_inv in Hd as (alg & -> & Halg & _ & Hexp).
    apply list_elem_of_singleton in Halg as ->.
    destruct (p !! "sub"%string) as [u | ] eqn:Hs; [ | discriminate ].
    destruct (decide (u = JNull)) as [-> | Hn]; [ discriminate | ].
    rewrite (bool_decide_eq_false_2 _ Hn) in Hg.
    destruct (get_user_by_username u) as [user' | ] eqn:Hu; [ | discriminate ].
    injection Hg as ->. exists p, u. repeat split; auto.
  - unfold get_current_user in Hg. rewrite Hd in Hg.
    destruct e; discriminate.
Qed.


(** X3. The header algorithm is pinned: a token whose header names any
    algorithm other than the configured one gets the 401, whatever its
    payload and signature. *)
Theorem get_current_user_pins_algorithm now alg p sig :
  alg ≠ JWT_ALGORITHM settings →
  gate now (Compact alg p sig) = Raises (HTTP credentials_exception).
Proof.
  intros Hne. eapply get_current_user_decode_failure. unfold decode.
  rewrite bool_decide_eq_false_2; [ reflexivity | ].
  intros Hin. apply list_elem_of_singleton in Hin. contradiction.
Qed.

End gate_properties.

Lemma get_current_user_sound_witness :
  ∃ p u,
    fixtures.signed fixtures.settings0 fixtures.claims_alice
    = Compact "HS256" p (fixtures.toy_sign "s3cret" "HS256" p)
    ∧ (∀ e, p !! "exp"%string = Some (JInt e) → datetime.timegm 1000000 ≤ e)
    ∧ p !! "sub"%string = Some u ∧ u ≠ JNull
    ∧ fixtures.directory0 u = Some fixtures.alice.
Proof.
  apply (@get_current_user_sound fixtures.toy_lib fixtures.settings0
           fixtures.directory0 1000000
           (fixtures.signed fixtures.settings0 fixtures.claims_alice)
           fixtures.alice).
  vm_compute. reflexivity.
Defined.

Lemma get_current_user_pins_algorithm_witness :
  @get_current_user fixtures.toy_lib fixtures.settings0 fixtures.directory0 1000000
    (Compact "none" fixtures.claims_alice "")
  = Raises (HTTP credentials_exception).
Proof.
  apply (@get_current_user_pins_algorithm fixtures.toy_lib fixtures.settings0
           fixtures.directory0 1000000 "none" fixtures.claims_alice "").
  discriminate.
Defined.

(* ===================================================================== *)
(** ** Issuing a token and presenting it                                   *)
(* ===================================================================== *)

Section presenting.
Context `{L : Lib}.
Variable settings : Settings.
Variable get_user_by_username : json → option User.

Abbreviation key := (JWT_SECRET settings).
Abbreviation alg := (JWT_ALGORITHM settings).
Abbreviation gate := (get_current_user settings get_user_by_username).

(** A token signed by the service for payload [p], presented while the
    second of the clock is not past its [exp]. *)
Lemma service_token_decodes now' (p : gmap string json) e :
  p !! "exp"%string = Some (JInt e) →
  registered_claims_ok p (datetime.timegm now') = true →
  datetime.timegm now' ≤ e →
  decode (Compact alg p (sign key alg p)) key [alg] now' = Returns p.
Proof.
  intros He Hok Hle.
  eapply decode_well_signed; [ constructor | exact Hok | exact He | exact Hle ].
Qed.

(** The gate on a service token that names a known user: accepted up to
    and including the second [exp], refused with the 401 after it. *)
Lemma gate_on_service_token now' (p : gmap string json) e u user :
  p !! "exp"%string = Some (JInt e) →
  p !! "sub"%string = Some u → u ≠ JNull →
  get_user_by_username u = Some user →
  registered_claims_ok p (datetime.timegm now') = true →
  (datetime.timegm now' ≤ e →
   gate now' (Compact alg p (sign key alg p)) = Returns user)
  ∧ (e < datetime.timegm now' →
     gate now' (Compact alg p (sign key alg p)) = Raises (HTTP credentials_exception)).
Proof.
  intros He Hs Hn Hu Hok. split.
  - intros Hle. eapply get_current_user_known_subject; eauto.
    eapply service_token_decodes; eauto.
  - intros Hlt. eapply get_current_user_expired; eauto.
Qed.

(** X4. Login, then an authenticated request: the token that
    [create_access_token] issues for claims whose [sub] names a user of the
    directory makes [get_current_user] return that user exactly as long as
    the second of the clock is not past the second of the expiry instant;
    after it the answer is the 401. *)
Theorem access_token_authenticates now now' data x h (dj : gmap string json)
    t name user :
  h !! data = Some (PJson <$> dj) →
  dj !! "sub"%string = Some (JStr name) →
  get_user_by_username (JStr name) = Some user →
  access_expiry settings now x = Returns t →
  registered_claims_ok (<["exp"%string := JInt (datetime.timegm t)]> dj)
    (datetime.timegm now') = true →
  ∃ tok h',
    create_access_token settings now data x h = Some (Returns tok, h')
    ∧ (gate now' tok = Returns user ↔ datetime.timegm now' ≤ datetime.timegm t)
    ∧ (datetime.timegm t < datetime.timegm now' →
       gate now' tok = Raises (HTTP credentials_exception)).
Proof.
  intros Hd Hs Hu Ht Hok.
  pose proof (create_access_token_json settings now data x h dj t Hd Ht) as Hrun.
  simpl in Hrun. rewrite Hrun. eexists _, _. split; [ reflexivity | ].
  destruct (gate_on_service_token now'
              (<["exp"%string := JInt (datetime.timegm t)]> dj)
              (datetime.timegm t) (JStr name) user) as [Hin Hout]; auto.
  { apply lookup_insert_eq. }
  { rewrite lookup_insert_ne by done. exact Hs. }
  split; [ | exact Hout ]. split; [ | exact Hin ].
  intros Hret. destruct (Z_le_gt_dec (datetime.timegm now') (datetime.timegm t))
    as [Hle | Hgt]; [ exact Hle | ].
  rewrite Hout in Hret by lia. discriminate.
Qed.

(** X5. A negative [expires_delta] yields a token that is of no use from
    the instant it is issued: presented at any reading not before the
    issuing one, it never makes [get_current_user] return a user, and it
    gets the 401 whenever the library accepts its other registered
    claims. *)
Theorem negative_ttl_token_refused now data n h (dj : gmap string json) :
  h !! data = Some (PJson <$> dj) →
  n < 0 →
  datetime.seconds_later_ok now n →
  ∃ tok h',
    create_access_token settings now data (Some n) h = Some (Returns tok, h')
    ∧ ∀ now', now ≤ now' →
        (∀ user, gate now' tok ≠ Returns user)
        ∧ (registered_claims_ok (payload_of tok) (datetime.timegm now') = true →
           gate now' tok = Raises (HTTP credentials_exception)).
Proof.
  intros Hd Hn Hok.
  assert (n ≠ 0) as Hnz by lia.
  pose proof (create_access_token_supplied settings now data n h dj Hd Hnz Hok) as Hrun.
  simpl in Hrun. rewrite Hrun. eexists _, _. split; [ reflexivity | ].
  intros now' Hle. pose proof (timegm_mono _ _ Hle) as Hmono.
  assert (datetime.timegm now + n < datetime.timegm now') as Hpast by lia.
  split.
  - intros user Hret.
    destruct (decode_expired key alg [alg]
                (<["exp"%string := JInt (datetime.timegm now + n)]> dj)
                (sign key alg (<["exp"%string := JInt (datetime.timegm now + n)]> dj))
                now' _ (lookup_insert_eq _ _ _) Hpast) as [x Hx].
    unfold get_current_user in Hret. rewrite Hx in Hret.
    destruct x; discriminate.
  - simpl. intros Hc.
    eapply get_current_user_expired; [ apply lookup_insert_eq | exact Hpast | exact Hc ].
Qed.

(** X6. An email token is good for seven days: [get_email_from_token]
    returns the [sub] that was passed to [create_email_token] as long as the
    second of the clock is not past the second of issue plus 604800, and
    raises the 422 after it. *)
Theorem email_token_round_trip now_exp now_iat now' data h (dj : gmap string json) v :
  h !! data = Some (PJson <$> dj) →
  dj !! "sub"%string = Some v →
  datetime.MIN ≤ now_exp + 604800 * 1000000 ≤ datetime.MAX →
  registered_claims_ok
    (<["exp"%string := JInt (datetime.timegm now_exp + 604800)]>
       (<["iat"%string := JInt (datetime.timegm now_iat)]> dj))
    (datetime.timegm now') = true →
  ∃ tok h',
    create_email_token settings now_exp now_iat data h = Some (Returns tok, h')
    ∧ (datetime.timegm now' ≤ datetime.timegm now_exp + 604800 →
       get_email_from_token settings now' tok = Returns v)
    ∧ (datetime.timegm now_exp + 604800 < datetime.timegm now' →
       get_email_from_token settings now' tok = Raises (HTTP invalid_email_token)).
Proof.
  intros Hd Hs Hr Hok.
  pose proof (create_email_token_json settings now_exp now_iat data h dj Hd Hr) as Hrun.
  simpl in Hrun. rewrite Hrun. eexists _, _. split; [ reflexivity | ]. split.
  - intros Hle. eapply get_email_from_token_subject.
    + eapply service_token_decodes; eauto. apply lookup_insert_eq.
    + rewrite !lookup_insert_ne by done. exact Hs.
  - intros Hlt.
    destruct (decode_expired_JWTError key alg [alg]
                (<["exp"%string := JInt (datetime.timegm now_exp + 604800)]>
                   (<["iat"%string := JInt (datetime.timegm now_iat)]> dj))
                (sign key alg
                   (<["exp"%string := JInt (datetime.timegm now_exp + 604800)]>
                      (<["iat"%string := JInt (datetime.timegm now_iat)]> dj)))
                now' _ (lookup_insert_eq _ _ _) Hlt Hok) as [j Hj].
    eapply get_email_from_token_decode_failure, Hj.
Qed.

(** X7. The two kinds of token are not told apart. An email token whose
    [sub] is the username of a user is accepted by [get_current_user], for
    its seven days; and [get_email_from_token] returns the [sub] of an
    access token while that token is valid. *)
Theorem token_kinds_interchangeable now now_iat now' data h (dj : gmap string json)
    name user x t :
  h !! data = Some (PJson <$> dj) →
  dj !! "sub"%string = Some (JStr name) →
  get_user_by_username (JStr name) = Some user →
  datetime.MIN ≤ now + 604800 * 1000000 ≤ datetime.MAX →
  access_expiry settings now x = Returns t →
  (∃ tok h',
     create_email_token settings now now_iat data h = Some (Returns tok, h')
     ∧ (registered_claims_ok (payload_of tok) (datetime.timegm now') = true →
        datetime.timegm now' ≤ datetime.timegm now + 604800 →
        gate now' tok = Returns user))
  ∧ (∃ tok h',
       create_access_token settings now data x h = Some (Returns tok, h')
       ∧ (registered_claims_ok (payload_of tok) (datetime.timegm now') = true →
          datetime.timegm now' ≤ datetime.timegm t →
          get_email_from_token settings now' tok = Returns (JStr name))).
Proof.
  intros Hd Hs Hu Hr Ht. split.
  - pose proof (create_email_token_json settings now now_iat data h dj Hd Hr) as Hrun.
    simpl in Hrun. rewrite Hrun. eexists _, _. split; [ reflexivity | ].
    simpl. intros Hok Hle.
    destruct (gate_on_service_token now'
                (<["exp"%string := JInt (datetime.timegm now + 604800)]>
                   (<["iat"%string := JInt (datetime.timegm now_iat)]> dj))
                (datetime.timegm now + 604800) (JStr name) user) as [Hin _]; auto.
    + apply lookup_insert_eq.
    + rewrite !lookup_insert_ne by done. exact Hs.
  - pose proof (create_access_token_json settings now data x h dj t Hd Ht) as Hrun.
    simpl in Hrun. rewrite Hrun. eexists _, _. split; [ reflexivity | ].
    simpl. intros Hok Hle. eapply get_email_from_token_subject.
    + eapply service_token_decodes; eauto. apply lookup_insert_eq.
    + rewrite lookup_insert_ne by done. exact Hs.
Qed.

End presenting.

Lemma access_token_authenticates_witness :
  ∃ tok h',
    @create_access_token fixtures.toy_lib fixtures.settings0 500000 1%positive
       (Some 60) fixtures.heap0 = Some (Returns tok, h')
    ∧ (@get_current_user fixtures.toy_lib fixtures.settings0 fixtures.directory0
         30000000 tok = Returns fixtures.alice
       ↔ datetime.timegm 30000000 ≤ datetime.timegm 60500000)
    ∧ (datetime.timegm 60500000 < datetime.timegm 30000000 →
       @get_current_user fixtures.toy_lib fixtures.settings0 fixtures.directory0
         30000000 tok = Raises (HTTP credentials_exception)).
Proof.
  apply (@access_token_authenticates fixtures.toy_lib fixtures.settings0
           fixtures.directory0 500000 30000000 1%positive (Some 60) fixtures.heap0
           fixtures.claims_alice 60500000 "alice" fixtures.alice);
    vm_compute; reflexivity.
Defined.

Lemma negative_ttl_token_refused_witness :
  ∃ tok h',
    @create_access_token fixtures.toy_lib fixtures.settings0 10000000 1%positive
       (Some (-5)) fixtures.heap0 = Some (Returns tok, h')
    ∧ ∀ now', 10000000 ≤ now' →
        (∀ user,
           @get_current_user fixtures.toy_lib fixtures.settings0 fixtures.directory0
             now' tok ≠ Returns user)
        ∧ (fixtures.toy_claims_ok (payload_of tok) (datetime.timegm now') = true →
           @get_current_user fixtures.toy_lib fixtures.settings0 fixtures.directory0
             now' tok = Raises (HTTP credentials_exception)).
Proof.
  apply (@negative_ttl_token_refused fixtures.toy_lib fixtures.settings0
           fixtures.directory0 10000000 1%positive (-5) fixtures.heap0
           fixtures.claims_alice).
  - reflexivity.
  - lia.
  - vm_compute. intuition discriminate.
Defined.

Lemma email_token_round_trip_witness :
  ∃ tok h',
    @create_email_token fixtures.toy_lib fixtures.settings0 1999999 2000000
       1%positive fixtures.heap0 = Some (Returns tok, h')
    ∧ (datetime.timegm 3000000 ≤ datetime.timegm 1999999 + 604800 →
       @get_email_from_token fixtures.toy_lib fixtures.settings0 3000000 tok
       = Returns (JStr "alice"))
    ∧ (datetime.timegm 1999999 + 604800 < datetime.timegm 3000000 →
       @get_email_from_token fixtures.toy_lib fixtures.settings0 3000000 tok
       = Raises (HTTP invalid_email_token)).
Proof.
  apply (@email_token_round_trip fixtures.toy_lib fixtures.settings0
           1999999 2000000 3000000 1%positive fixtures.heap0
           fixtures.claims_alice (JStr "alice")).
  - reflexivity.
  - reflexivity.
  - vm_compute. intuition discriminate.
  - vm_compute. reflexivity.
Defined.

Lemma token_kinds_interchangeable_witness :
  (∃ tok h',
     @create_email_token fixtures.toy_lib fixtures.settings0 500000 500001
        3%positive samples.heap1 = Some (Returns tok, h')
     ∧ (fixtures.toy_claims_ok (payload_of tok) (datetime.timegm 9000000) = true →
        datetime.timegm 9000000 ≤ datetime.timegm 500000 + 604800 →
        @get_current_user fixtures.toy_lib fixtures.settings0 samples.directory1
          9000000 tok = Returns samples.carol))
  ∧ (∃ tok h',
       @create_access_token fixtures.toy_lib fixtures.settings0 500000 3%positive
          None samples.heap1 = Some (Returns tok, h')
       ∧ (fixtures.toy_claims_ok (payload_of tok) (datetime.timegm 9000000) = true →
          datetime.timegm 9000000 ≤ datetime.timegm 3600500000 →
          @get_email_from_token fixtures.toy_lib fixtures.settings0 9000000 tok
          = Returns (JStr "carol@x.com"))).
Proof.
  apply (@token_kinds_interchangeable fixtures.toy_lib fixtures.settings0
           samples.directory1 500000 500001 9000000 3%positive samples.heap1
           samples.claims_carol "carol@x.com" samples.carol None 3600500000).
  - reflexivity.
  - reflexivity.
  - reflexivity.
  - vm_compute. intuition discriminate.
  - reflexivity.
Defined.

(* ===================================================================== *)
(** ** What the issued token does not depend on, and when none is issued   *)
(* ===================================================================== *)

Section issuing_edges.
Context `{L : Lib}.
Variable settings : Settings.

Lemma add_seconds_overflow dt n :
  ¬ datetime.seconds_later_ok dt n →
  datetime.add dt (datetime.timedelta_seconds n) = Raises OverflowError.
Proof.
  intros Hno. unfold datetime.add, datetime.timedelta_seconds.
  destruct (bool_decide (-999999999 ≤ n `div` 86400 ≤ 999999999)) eqn:Hd;
    [ | reflexivity ].
  destruct (bool_decide (datetime.MIN ≤ dt + n * 1000000 ≤ datetime.MAX)) eqn:Hs;
    [ | reflexivity ].
  apply bool_decide_eq_true in Hd, Hs. exfalso. apply Hno. split; assumption.
Qed.

(** X8. What the caller put under [exp] never reaches the claims of an
    access token: two dictionaries that agree on every other key give tokens
    that carry the same claims, with [exp] the computed expiry. (The claims
    are compared as mappings; nothing is said of the order in which the two
    tokens spell them.) *)
Theorem access_token_ignores_supplied_exp now x h data1 data2
    (dj1 dj2 : gmap string json) t :
  h !! data1 = Some (PJson <$> dj1) →
  h !! data2 = Some (PJson <$> dj2) →
  access_expiry settings now x = Returns t →
  (∀ k, k ≠ "exp"%string → dj1 !! k = dj2 !! k) →
  ∃ tok1 tok2 h1 h2,
    create_access_token settings now data1 x h = Some (Returns tok1, h1)
    ∧ create_access_token settings now data2 x h = Some (Returns tok2, h2)
    ∧ payload_of tok1 = payload_of tok2
    ∧ payload_of tok1 !! "exp"%string = Some (JInt (datetime.timegm t)).
Proof.
  intros H1 H2 Ht Hagree.
  pose proof (create_access_token_json settings now data1 x h dj1 t H1 Ht) as R1.
  pose proof (create_access_token_json settings now data2 x h dj2 t H2 Ht) as R2.
  simpl in R1, R2. rewrite R1, R2.
  eexists _, _, _, _. split; [ reflexivity | ]. split; [ reflexivity | ].
  simpl. split; [ | apply lookup_insert_eq ].
  apply map_eq. intros k. destruct (decide (k = "exp"%string)) as [-> | Hk].
  - rewrite !lookup_insert_eq. reflexivity.
  - rewrite !lookup_insert_ne by done. apply Hagree, Hk.
Qed.

(** X9. What the caller put under [exp] or [iat] never reaches the claims
    of an email token: two dictionaries that agree on every other key give
    tokens that carry the same claims, with [iat] and [exp] the computed
    ones. (The claims are compared as mappings; nothing is said of the order
    in which the two tokens spell them.) *)
Theorem email_token_ignores_supplied_stamps now_exp now_iat h data1 data2
    (dj1 dj2 : gmap string json) :
  h !! data1 = Some (PJson <$> dj1) →
  h !! data2 = Some (PJson <$> dj2) →
  datetime.MIN ≤ now_exp + 604800 * 1000000 ≤ datetime.MAX →
  (∀ k, k ≠ "exp"%string → k ≠ "iat"%string → dj1 !! k = dj2 !! k) →
  ∃ tok1 tok2 h1 h2,
    create_email_token settings now_exp now_iat data1 h = Some (Returns tok1, h1)
    ∧ create_email_token settings now_exp now_iat data2 h = Some (Returns tok2, h2)
    ∧ payload_of tok1 = payload_of tok2
    ∧ payload_of tok1 !! "iat"%string = Some (JInt (datetime.timegm now_iat))
    ∧ payload_of tok1 !! "exp"%string = Some (JInt (datetime.timegm now_exp + 604800)).
Proof.
  intros H1 H2 Hr Hagree.
  pose proof (create_email_token_json settings now_exp now_iat data1 h dj1 H1 Hr) as R1.
  pose proof (create_email_token_json settings now_exp now_iat data2 h dj2 H2 Hr) as R2.
  simpl in R1, R2. rewrite R1, R2.
  eexists _, _, _, _. split; [ reflexivity | ]. split; [ reflexivity | ]. simpl.
  split; [ | rewrite lookup_insert_ne by done; rewrite !lookup_insert_eq;
             split; reflexivity ].
  apply map_eq. intros k. destruct (decide (k = "exp"%string)) as [-> | Hk].
  - rewrite !lookup_insert_eq. reflexivity.
  - rewrite !(lookup_insert_ne _ "exp"%string) by done.
    destruct (decide (k = "iat"%string)) as [-> | Hk'].
    + rewrite !lookup_insert_eq. reflexivity.
    + rewrite !lookup_insert_ne by done. apply Hagree; assumption.
Qed.

(** X10. When [expires_delta] is not zero and the instant that many seconds
    after the clock reading cannot be computed (the [timedelta] or the sum
    is out of range), [create_access_token] raises [OverflowError] and
    issues no token; the caller's dictionary, and every object that existed
    before the call, is as it was. *)
Theorem create_access_token_overflow now data n h d :
  h !! data = Some d →
  n ≠ 0 →
  ¬ datetime.seconds_later_ok now n →
  ∃ h',
    create_access_token settings now data (Some n) h = Some (Raises OverflowError, h')
    ∧ h' !! data = Some d
    ∧ ∀ l o, h !! l = Some o → h' !! l = Some o.
Proof.
  intros Hd Hn Hno. rewrite (create_access_token_run settings now data _ h d Hd).
  unfold access_expiry, truthy. apply Z.eqb_neq in Hn. rewrite Hn. simpl.
  rewrite (add_seconds_overflow _ _ Hno). eexists. split; [ reflexivity | ].
  split; [ by apply fresh_cell_frame | intros; by apply fresh_cell_frame ].
Qed.


End issuing_edges.

Lemma access_token_ignores_supplied_exp_witness :
  ∃ tok1 tok2 h1 h2,
    @create_access_token fixtures.toy_lib fixtures.settings0 500000 1%positive
       (Some 60) samples.heap1 = Some (Returns tok1, h1)
    ∧ @create_access_token fixtures.toy_lib fixtures.settings0 500000 4%positive
       (Some 60) samples.heap1 = Some (Returns tok2, h2)
    ∧ payload_of tok1 = payload_of tok2
    ∧ payload_of tok1 !! "exp"%string = Some (JInt (datetime.timegm 60500000)).
Proof.
  apply (@access_token_ignores_supplied_exp fixtures.toy_lib fixtures.settings0
           500000 (Some 60) samples.heap1 1%positive 4%positive
           fixtures.claims_alice samples.claims_alice_dated 60500000).
  - reflexivity.
  - reflexivity.
  - reflexivity.
  - intros k Hk. unfold samples.claims_alice_dated.
    rewrite lookup_insert_ne by done. reflexivity.
Defined.

Lemma email_token_ignores_supplied_stamps_witness :
  ∃ tok1 tok2 h1 h2,
    @create_email_token fixtures.toy_lib fixtures.settings0 1999999 2000000
       1%positive samples.heap1 = Some (Returns tok1, h1)
    ∧ @create_email_token fixtures.toy_lib fixtures.settings0 1999999 2000000
       2%positive samples.heap1 = Some (Returns tok2, h2)
    ∧ payload_of tok1 = payload_of tok2
    ∧ payload_of tok1 !! "iat"%string = Some (JInt (datetime.timegm 2000000))
    ∧ payload_of tok1 !! "exp"%string = Some (JInt (datetime.timegm 1999999 + 604800)).
Proof.
  apply (@email_token_ignores_supplied_stamps fixtures.toy_lib fixtures.settings0
           1999999 2000000 samples.heap1 1%positive 2%positive
           fixtures.claims_alice samples.claims_alice_stamped).
  - reflexivity.
  - reflexivity.
  - vm_compute. intuition discriminate.
  - intros k Hk Hk'. unfold samples.claims_alice_stamped.
    rewrite !lookup_insert_ne by done. reflexivity.
Defined.

Lemma create_access_token_overflow_witness :
  ∃ h',
    @create_access_token fixtures.toy_lib fixtures.settings0 0 1%positive
       (Some 1000000000000000) fixtures.heap0 = Some (Raises OverflowError, h')
    ∧ h' !! 1%positive = Some (PJson <$> fixtures.claims_alice)
    ∧ ∀ l o, fixtures.heap0 !! l = Some o → h' !! l = Some o.
Proof.
  apply (@create_access_token_overflow fixtures.toy_lib fixtures.settings0 0
           1%positive 1000000000000000 fixtures.heap0
           (PJson <$> fixtures.claims_alice)).
  - reflexivity.
  - discriminate.
  - vm_compute. intros [[_ H] _]. apply H. reflexivity.
Defined.

Section email_lifetime.
Context `{L : Lib}.
Variable settings : Settings.

(** X12. With a clock that does not run backwards and two readings less
    than a second apart, the email token's [exp - iat] is seven days or
    seven days less one second, and [iat] is before [exp]. *)
Theorem create_email_token_lifetime_bounds now_exp now_iat data h
    (dj : gmap string json) :
  h !! data = Some (PJson <$> dj) →
  datetime.MIN ≤ now_exp + 604800 * 1000000 ≤ datetime.MAX →
  now_exp ≤ now_iat →
  now_iat < now_exp + 1000000 →
  ∃ tok h' iat exp,
    create_email_token settings now_exp now_iat data h = Some (Returns tok, h')
    ∧ payload_of tok !! "iat"%string = Some (JInt iat)
    ∧ payload_of tok !! "exp"%string = Some (JInt exp)
    ∧ 604799 ≤ exp - iat ≤ 604800
    ∧ iat < exp.
Proof.
  intros Hd Hr Hmono Hnear.
  pose proof (create_email_token_json settings now_exp now_iat data h dj Hd Hr) as Hrun.
  simpl in Hrun. rewrite Hrun. eexists _, _, _, _. split; [ reflexivity | ]. simpl.
  rewrite lookup_insert_ne by done. rewrite !lookup_insert_eq.
  split; [ reflexivity | ]. split; [ reflexivity | ].
  pose proof (timegm_mono _ _ Hmono) as Hlo.
  assert (datetime.timegm now_iat ≤ datetime.timegm (now_exp + 1 * 1000000)) as Hhi
    by (apply timegm_mono; lia).
  rewrite timegm_add_seconds in Hhi. lia.
Qed.

End email_lifetime.

Lemma create_email_token_lifetime_bounds_witness :
  ∃ tok h' iat exp,
    @create_email_token fixtures.toy_lib fixtures.settings0 1999999 2000000
       1%positive fixtures.heap0 = Some (Returns tok, h')
    ∧ payload_of tok !! "iat"%string = Some (JInt iat)
    ∧ payload_of tok !! "exp"%string = Some (JInt exp)
    ∧ 604799 ≤ exp - iat ≤ 604800
    ∧ iat < exp.
Proof.
  apply (@create_email_token_lifetime_bounds fixtures.toy_lib fixtures.settings0
           1999999 2000000 1%positive fixtures.heap0 fixtures.claims_alice).
  - reflexivity.
  - vm_compute. intuition discriminate.
  - lia.
  - lia.
Defined.

(* ===================================================================== *)
(** ** More on the contact service                                         *)
(* ===================================================================== *)

Section service_calls.
Context {DB : Type} `{R : ContactRepository DB}.

(** X13. When the duplicate check answers that no such contact exists,
    [create_contact] awaits exactly two calls, the check and then the
    repository's [create_contact]; the latter runs on the store the check
    left, and its contact and its store are what the method leaves. *)
Theorem create_contact_check_then_create (body : ContactModel) (user : User) (db : DB) :
  (handle (IsContactExists (email body) (phone body) user) db).1 = false →
  let db1 := (handle (IsContactExists (email body) (phone body) user) db).2 in
  let r := run (create_contact body user) db in
  calls r = [Awaited (IsContactExists (email body) (phone body) user);
             Awaited (CreateContact body user)]
  ∧ result r = Returns (handle (CreateContact body user) db1).1
  ∧ store r = (handle (CreateContact body user) db1).2.
Proof.
  intros Hc db1 r. unfold r, db1, create_contact.
  rewrite run_Call, Hc, run_Call. simpl. repeat split.
Qed.

(** X14. Each of [get_contact], [update_contact] and [remove_contact]
    awaits one repository call and no other, also when it raises the 404:
    the store is what that call left, and the repository's [create_contact]
    is never among the calls. *)
Theorem lookup_methods_single_call (contact_id : Z) (body : ContactModel)
    (user : User) (db : DB) :
  (let r := run (get_contact contact_id user) db in
   calls r = [Awaited (GetContactById contact_id user)]
   ∧ store r = (handle (GetContactById contact_id user) db).2)
  ∧ (let r := run (update_contact contact_id body user) db in
     calls r = [Awaited (UpdateContact contact_id body user)]
     ∧ store r = (handle (UpdateContact contact_id body user) db).2)
  ∧ (let r := run (remove_contact contact_id user) db in
     calls r = [Awaited (RemoveContact contact_id user)]
     ∧ store r = (handle (RemoveContact contact_id user) db).2)
  ∧ Forall (λ ev, is_create ev = false)
      (calls (run (get_contact contact_id user) db)
       ++ calls (run (update_contact contact_id body user) db)
       ++ calls (run (remove_contact contact_id user) db)).
Proof.
  pose proof (run_lookup_or_404 (GetContactById contact_id user) db)
    as (_ & _ & Hgs & Hgc).
  pose proof (run_lookup_or_404 (UpdateContact contact_id body user) db)
    as (_ & _ & Hus & Huc).
  pose proof (run_lookup_or_404 (RemoveContact contact_id user) db)
    as (_ & _ & Hrs & Hrc).
  simpl in *. unfold get_contact, update_contact, remove_contact.
  rewrite Hgc, Huc, Hrc. repeat split; auto.
  repeat constructor.
Qed.

End service_calls.

Lemma create_contact_check_then_create_witness :
  let r := @run _ _ in_memory (create_contact fixtures.body_a111 fixtures.bob)
             [mkContact 1 1 fixtures.body_a111] in
  calls r = [Awaited (IsContactExists "a@x.com" "111" fixtures.bob);
             Awaited (CreateContact fixtures.body_a111 fixtures.bob)]
  ∧ result r = Returns (mkContact 2 2 fixtures.body_a111)
  ∧ store r = [mkContact 1 1 fixtures.body_a111; mkContact 2 2 fixtures.body_a111].
Proof.
  apply (@create_contact_check_then_create _ in_memory fixtures.body_a111
           fixtures.bob [mkContact 1 1 fixtures.body_a111]).
  reflexivity.
Defined.

(* ===================================================================== *)
(** ** main.py: the rate-limit handler and the migrations                  *)
(* ===================================================================== *)

Section main_module.

(** X15. [run_migrations] swallows nothing: what leaves it is what the
    [alembic] calls raised, unchanged, or nothing when they complete. One
    [ERROR] record, on the logger named [rate_limiter] and carrying the
    [str] of what was raised, is made exactly when an [Exception] was
    raised; [startup_event] does the same. *)
Theorem run_migrations_reraises (body : option main.Thrown) :
  (main.run_migrations body).2 = body
  ∧ ((main.run_migrations body).1 ≠ [] ↔
     ∃ e, body = Some e ∧ main.is_Exception e = true)
  ∧ (∀ e, body = Some e → main.is_Exception e = true →
       (main.run_migrations body).1
       = [main.mkLog "rate_limiter" main.ERROR
            ("Failed to apply migrations: " +:+ main.text e)])
  ∧ main.startup_event body = main.run_migrations body.
Proof.
  destruct body as [[[ | ] s] | ]; simpl.
  - split; [ reflexivity | ]. split; [ | split; [ | reflexivity ] ].
    + split; [ intros _; eexists; split; reflexivity | discriminate ].
    + intros e [= <-] _. reflexivity.
  - split; [ reflexivity | ]. split; [ | split; [ | reflexivity ] ].
    + split; [ intros H; by destruct H | ].
      intros (e & [= <-] & He). discriminate.
    + intros e [= <-] He. discriminate.
  - split; [ reflexivity | ]. split; [ | split; [ | reflexivity ] ].
    + split; [ intros H; by destruct H | ].
      intros (e & He & _). discriminate.
    + intros e He. discriminate.
Qed.

(** X16. For a request that has a client address, [rate_limit_handler]
    answers 429 with a body that does not depend on the request, and makes
    one [WARNING] record naming the host and the path. For a request with
    no client address it raises [AttributeError] before anything is logged,
    and no 429 is produced. *)
Theorem rate_limit_handler_outcomes (request : main.Request) (exc : string) :
  (∀ addr, main.client request = Some addr →
     main.rate_limit_handler request exc
     = ([main.mkLog "rate_limiter" main.WARNING
           ("Rate limit exceeded for '" +:+ main.host addr +:+ "' at '"
            +:+ main.url_path request +:+ "'.")],
        main.Responds main.too_many_requests))
  ∧ (main.client request = None →
     main.rate_limit_handler request exc = ([], main.RaisesAttributeError "host"))
  ∧ main.response_status main.too_many_requests = 429
  ∧ (∀ r, (main.rate_limit_handler request exc).2 = main.Responds r →
          r = main.too_many_requests ∧ is_Some (main.client request)).
Proof.
  unfold main.rate_limit_handler.
  destruct (main.client request) as [addr | ]; simpl.
  - split; [ intros ? [= <-]; reflexivity | ].
    split; [ discriminate | ]. split; [ reflexivity | ].
    intros r [= <-]. eauto.
  - split; [ intros ? [=] | ]. split; [ reflexivity | ].
    split; [ reflexivity | ]. intros r [=].
Qed.

End main_module.
